(** * Voxlor agents: a shallow embedding of the optimizer, research,
    planner, orchestrator and deployment agents, and their properties.

    Strings are modelled as [String.string]; each [ascii] stands for one
    UTF-16 code unit in the range 0..255 (ASCII and Latin-1), which is
    enough for the texts these agents manipulate. *)

From Stdlib Require Import String Ascii List Bool ZArith QArith Qminmax Lia Lqa Sorted Permutation.
Import ListNotations.
Open Scope nat_scope.
Open Scope string_scope.

(* ------------------------------------------------------------------ *)
(** ** JavaScript string primitives *)

Module JsString.

(** Single characters that Rocq string literals cannot hold directly. *)
Definition ch (n : nat) : string := String (ascii_of_nat n) EmptyString.
Definition nl_char : ascii := ascii_of_nat 10.
Definition nl : string := String nl_char EmptyString.
Definition dq : string := ch 34.

(** [String.prototype.includes]: [includes s p] is true when [p] occurs in
    [s]; the empty string occurs everywhere. *)
Fixpoint includes (s p : string) : bool :=
  prefix p s ||
  match s with
  | EmptyString => false
  | String _ s' => includes s' p
  end.

(** The code units that [String.prototype.trim] and the regex class [\s]
    treat as white space, restricted to 0..255: TAB, LF, VT, FF, CR, SPACE
    and NO-BREAK SPACE. *)
Definition is_ws (c : ascii) : bool :=
  let n := nat_of_ascii c in
  (Nat.eqb n 9) || (Nat.eqb n 10) || (Nat.eqb n 11) || (Nat.eqb n 12) ||
  (Nat.eqb n 13) || (Nat.eqb n 32) || (Nat.eqb n 160).

Fixpoint trim_start (s : string) : string :=
  match s with
  | EmptyString => EmptyString
  | String c s' => if is_ws c then trim_start s' else s
  end.

Fixpoint rev_str (s : string) : string :=
  match s with
  | EmptyString => EmptyString
  | String c s' => rev_str s' ++ String c EmptyString
  end.

(** [String.prototype.trim]. *)
Definition trim (s : string) : string :=
  rev_str (trim_start (rev_str (trim_start s))).

(** [s.split(sep)] for a one-character separator. *)
Fixpoint split_char (sep : ascii) (s : string) : list string :=
  match s with
  | EmptyString => [EmptyString]
  | String c s' =>
      let r := split_char sep s' in
      if Ascii.eqb c sep then EmptyString :: r
      else match r with
           | h :: t => String c h :: t
           | [] => [String c EmptyString]
           end
  end.

(** [arr.join(sep)]. *)
Definition join (sep : string) (l : list string) : string := String.concat sep l.

(** All code units of [s] satisfy [P]. *)
Fixpoint forall_chars (P : ascii -> bool) (s : string) : bool :=
  match s with
  | EmptyString => true
  | String c s' => P c && forall_chars P s'
  end.

(** The code units other than [sep]. *)
Definition not_char (sep : ascii) (c : ascii) : bool := negb (Ascii.eqb c sep).

(** The position of the first occurrence of [p] in [s] ([indexOf]). *)
Fixpoint index_of (p s : string) : option nat :=
  if prefix p s then Some 0
  else match s with
       | EmptyString => None
       | String _ s' => option_map S (index_of p s')
       end.

(** GetSubstitution for a string pattern: [$$], [$&], [$`] and [$'] are
    expanded, every other [$] is copied as it is. *)
Fixpoint expand_repl (before matched after repl : string) : string :=
  match repl with
  | EmptyString => EmptyString
  | String c r =>
      if Ascii.eqb c "$" then
        match r with
        | String c2 r2 =>
            if Ascii.eqb c2 "$" then String "$" (expand_repl before matched after r2)
            else if Ascii.eqb c2 "&" then matched ++ expand_repl before matched after r2
            else if Ascii.eqb c2 "`" then before ++ expand_repl before matched after r2
            else if Ascii.eqb c2 "'" then after ++ expand_repl before matched after r2
            else String c (expand_repl before matched after r)
        | EmptyString => String c EmptyString
        end
      else String c (expand_repl before matched after r)
  end.

(** [s.replace(pat, repl)] with a string pattern: only the first
    occurrence is replaced. *)
Definition replace_first (s pat repl : string) : string :=
  match index_of pat s with
  | None => s
  | Some i =>
      let before := substring 0 i s in
      let after := substring (i + String.length pat) (String.length s) s in
      before ++ expand_repl before pat after repl ++ after
  end.

End JsString.

(* ------------------------------------------------------------------ *)
(** ** OptimizerAgent (src/src/agents/OptimizerAgent.ts) *)

Module Optimizer.
Import JsString.

(** [GeneratedCode] (CodeAgent.ts); each [{ [key: string]: string }] is an
    association list in [Object.keys] order.  The [config], [deployment]
    and other [any]-typed fields are read by none of the passes modelled
    here and are left out. *)
Record GeneratedCode := {
  components : list (string * string);
  pages : list (string * string);
  styles : list (string * string);
  routes : list (string * string);
  models : list (string * string);
  middleware : list (string * string);
  schema : string;
  migrations : list string;
  seeds : list string
}.

(** *** The global replace of the pattern <img([^>]* ) > by <img$1 loading=lazy /> *)

(** The maximal run of code units other than ['>'], and what follows. *)
Fixpoint span_not_gt (s : string) : string * string :=
  match s with
  | EmptyString => (EmptyString, EmptyString)
  | String c s' =>
      if Ascii.eqb c ">" then (EmptyString, s)
      else let '(g, r) := span_not_gt s' in (String c g, r)
  end.

(** The match of the pattern <img, a group of non-> code units, > at the start of [s]: group 1 and the rest.
    [[^>]*] is greedy and only its maximal run can be followed by ['>'],
    so backtracking never finds another match. *)
Definition img_match_at (s : string) : option (string * string) :=
  if prefix "<img" s then
    let '(g, r) := span_not_gt (substring 4 (String.length s) s) in
    match r with
    | String c r' => if Ascii.eqb c ">" then Some (g, r') else None
    | EmptyString => None
    end
  else None.

Definition img_repl (g : string) : string :=
  "<img" ++ g ++ " loading=" ++ dq ++ "lazy" ++ dq ++ " />".

(** The global replace; [fuel] bounds the scan (the length of [s] is
    enough, each step consumes at least one code unit). *)
Fixpoint img_lazy_fuel (fuel : nat) (s : string) : string :=
  match fuel with
  | O => s
  | S fuel' =>
      match img_match_at s with
      | Some (g, r) => img_repl g ++ img_lazy_fuel fuel' r
      | None =>
          match s with
          | EmptyString => EmptyString
          | String c s' => String c (img_lazy_fuel fuel' s')
          end
      end
  end.

Definition img_lazy (s : string) : string := img_lazy_fuel (S (String.length s)) s.

(** *** [line.match(/import\s*{([^}]+)}\s*from/)] *)

Fixpoint skip_ws (s : string) : string :=
  match s with
  | EmptyString => EmptyString
  | String c s' => if is_ws c then skip_ws s' else s
  end.

Fixpoint span_not_rbrace (s : string) : string * string :=
  match s with
  | EmptyString => (EmptyString, EmptyString)
  | String c s' =>
      if Ascii.eqb c "}" then (EmptyString, s)
      else let '(g, r) := span_not_rbrace s' in (String c g, r)
  end.

(** The match at the start of [s], returning group 1.  Both [\s*] are
    followed by a non-white-space literal and [[^}]+] by ['}'], so the
    greedy choice is the only one that can succeed. *)
Definition import_match_at (s : string) : option string :=
  if prefix "import" s then
    match skip_ws (substring 6 (String.length s) s) with
    | String c r =>
        if Ascii.eqb c "{" then
          let '(g, r2) := span_not_rbrace r in
          match g, r2 with
          | EmptyString, _ => None
          | _, String c2 r3 =>
              if Ascii.eqb c2 "}" && prefix "from" (skip_ws r3) then Some g else None
          | _, EmptyString => None
          end
        else None
    | EmptyString => None
    end
  else None.

(** Leftmost match. *)
Fixpoint import_match (s : string) : option string :=
  match import_match_at s with
  | Some g => Some g
  | None =>
      match s with
      | EmptyString => None
      | String _ s' => import_match s'
      end
  end.

(** [importMatch[1].split(',').map(imp => imp.trim())] *)
Definition imports_of (g : string) : list string := map trim (split_char "," g).

Definition mem (x : string) (l : list string) : bool := existsb (String.eqb x) l.

(** *** [removeUnusedImports] *)
Definition used_imports (content : string) (lines : list string) : list string :=
  flat_map (fun line =>
    match import_match line with
    | Some g =>
        filter (fun imp => includes content imp && negb (includes imp "*")) (imports_of g)
    | None => []
    end) lines.

Definition rewrite_import_line (used : list string) (line : string) : string :=
  match import_match line with
  | Some g =>
      let imps := imports_of g in
      let inline := filter (fun imp => mem imp used) imps in
      if Nat.eqb (length inline) 0 then EmptyString
      else if Nat.ltb (length inline) (length imps) then
        replace_first line ("{" ++ g ++ "}") ("{" ++ join ", " inline ++ "}")
      else line
  | None => line
  end.

Definition removeUnusedImports (content : string) : string :=
  let lines := split_char nl_char content in
  let used := used_imports content lines in
  join nl (filter (fun l => negb (String.eqb (trim l) EmptyString))
                  (map (rewrite_import_line used) lines)).

(** *** [optimizePerformance], one component and one route *)
Definition optimizeComponentPerf (filename content0 : string) : string :=
  let c1 := if includes content0 "export default" && negb (includes content0 "React.memo")
            then replace_first content0 "export default" "export default React.memo(" ++ ")"
            else content0 in
  let c2 := if includes c1 "useState" && negb (includes c1 "useMemo")
            then replace_first c1 "import React" "import React, { useMemo, useCallback }"
            else c1 in
  let c3 := if Nat.ltb 1000 (String.length c2) && negb (includes c2 "lazy")
            then replace_first c2 "import React" "import React, { lazy, Suspense }"
            else c2 in
  let c4 := img_lazy c3 in
  let c5 := if includes c4 "export default" && Nat.ltb 2000 (String.length c4)
            then let name := replace_first (replace_first filename ".tsx" "") ".ts" "" in
                 replace_first c4 ("export default " ++ name)
                   ("const " ++ name ++ " = lazy(() => import('./" ++ name ++ "'));" ++ nl
                    ++ "export default " ++ name)
            else c4 in
  removeUnusedImports c5.

Definition express_json : string := "app.use(express.json())".

Definition optimizeRoutePerf (content0 : string) : string :=
  let c1 := if includes content0 "res.json" && negb (includes content0 "Cache-Control")
            then replace_first content0 "res.json("
                   ("res.set(" ++ dq ++ "Cache-Control" ++ dq ++ ", " ++ dq
                    ++ "public, max-age=300" ++ dq ++ ");" ++ nl ++ "    res.json(")
            else content0 in
  let c2 := if negb (includes c1 "compression")
            then replace_first
                   ("import compression from " ++ dq ++ "compression" ++ dq ++ ";" ++ nl ++ c1)
                   express_json ("app.use(compression());" ++ nl ++ express_json)
            else c1 in
  let c3 := if negb (includes c2 "rateLimit")
            then replace_first
                   ("import rateLimit from " ++ dq ++ "express-rate-limit" ++ dq ++ ";" ++ nl ++ c2)
                   express_json
                   ("app.use(rateLimit({ windowMs: 15 * 60 * 1000, max: 100 }));" ++ nl
                    ++ express_json)
            else c2 in
  c3.

(** [optimizePerformance]: every component and every route is rewritten
    under its key; the other parts of the bundle are shared unchanged. *)
Definition optimizePerformance (code : GeneratedCode) : GeneratedCode :=
  {| components := map (fun '(f, c) => (f, optimizeComponentPerf f c)) (components code);
     pages := pages code;
     styles := styles code;
     routes := map (fun '(f, c) => (f, optimizeRoutePerf c)) (routes code);
     models := models code;
     middleware := middleware code;
     schema := schema code;
     migrations := migrations code;
     seeds := seeds code |}.

(** *** Scores *)
Definition perf_penalty (score : Z) (content : string) : Z :=
  let s1 := if includes content "console.log" then (score - 5)%Z else score in
  let s2 := if includes content "useEffect" && negb (includes content "[]")
            then (s1 - 10)%Z else s1 in
  if negb (includes content "React.memo") then (s2 - 5)%Z else s2.

Definition calculatePerformanceScore (code : GeneratedCode) : Z :=
  Z.max 0 (fold_left perf_penalty (map snd (components code)) 100%Z).

Definition sec_penalty (score : Z) (content : string) : Z :=
  let s1 := if negb (includes content "cors") then (score - 10)%Z else score in
  let s2 := if negb (includes content "validate") then (s1 - 15)%Z else s1 in
  let s3 := if includes content "eval(" then (s2 - 50)%Z else s2 in
  if includes content "innerHTML" then (s3 - 20)%Z else s3.

Definition calculateSecurityScore (code : GeneratedCode) : Z :=
  Z.max 0 (fold_left sec_penalty (map snd (routes code)) 100%Z).

Definition maint_penalty (score : Z) (content : string) : Z :=
  let s1 := if negb (includes content "interface") then (score - 10)%Z else score in
  let s2 := if includes content "any" then (s1 - 5)%Z else s1 in
  if Nat.ltb 500 (String.length content) then (s2 - 5)%Z else s2.

Definition calculateMaintainabilityScore (code : GeneratedCode) : Z :=
  Z.max 0 (fold_left maint_penalty (map snd (components code)) 100%Z).

(** A bundle with one component holding an image tag and nothing else. *)
Definition img_bundle : GeneratedCode :=
  {| components := [("Img.tsx", "<img src=a>")];
     pages := []; styles := []; routes := []; models := []; middleware := [];
     schema := ""; migrations := []; seeds := [] |}.

End Optimizer.

(* ------------------------------------------------------------------ *)
(** ** Exceptions: a promise either resolves with a value or rejects *)

Module Effects.

Inductive outcome (A : Type) : Type :=
| Ok (a : A)
| Throw (msg : string).
Arguments Ok {A} a.
Arguments Throw {A} msg.

Definition bind {A B} (m : outcome A) (k : A -> outcome B) : outcome B :=
  match m with
  | Ok a => k a
  | Throw e => Throw e
  end.

(** [try { m } catch (e) { h(e) }] *)
Definition try_catch {A} (m : outcome A) (h : string -> outcome A) : outcome A :=
  match m with
  | Ok a => Ok a
  | Throw e => h e
  end.

Module Notations.
Notation "x <- m ;; k" := (bind m (fun x => k))
  (at level 61, m at next level, right associativity).
End Notations.

End Effects.

(* ------------------------------------------------------------------ *)
(** ** A fragment of JavaScript regular expressions

    [new RegExp(p, 'g')] followed by [(s.match(re) || []).length], for the
    patterns built from literal code units, [.] and the quantifiers [*],
    [+] and [?] (each optionally lazy).  A quantifier with nothing to
    repeat is the early error "Nothing to repeat" that makes the
    constructor throw a [SyntaxError].  Patterns holding any of the code
    units ( ) [ ] { } | ^ $ and backslash lie outside this fragment. *)

Module JsRegExp.
Import JsString Effects.

Inductive atom := ALit (c : ascii) | ADot.
Inductive quant := QOne | QStar | QPlus | QOpt.
Record piece := { p_atom : atom; p_quant : quant; p_lazy : bool }.

Inductive compiled :=
| Compiled (ps : list piece)
| RxSyntaxError (msg : string)
| RxOutside.

Definition in_chars (c : ascii) (cs : string) : bool :=
  negb (forall_chars (not_char c) cs).

Definition is_quant (c : ascii) : bool := in_chars c "*+?".
Definition is_outside (c : ascii) : bool := in_chars c "()[]{}|^$\".

Definition atom_of (c : ascii) : atom := if Ascii.eqb c "." then ADot else ALit c.

Definition quant_of (c : ascii) : quant :=
  if Ascii.eqb c "*" then QStar else if Ascii.eqb c "+" then QPlus else QOpt.

Fixpoint parse_rx (s : string) : compiled :=
  match s with
  | EmptyString => Compiled []
  | String c r =>
      if is_outside c then RxOutside
      else if is_quant c then RxSyntaxError "Nothing to repeat"
      else
        let cons_piece q lz rest :=
          match parse_rx rest with
          | Compiled ps => Compiled ({| p_atom := atom_of c; p_quant := q; p_lazy := lz |} :: ps)
          | other => other
          end in
        match r with
        | String q r' =>
            if is_quant q then
              match r' with
              | String z r'' =>
                  if Ascii.eqb z "?" then
                    match parse_rx r'' with
                    | Compiled ps =>
                        Compiled ({| p_atom := atom_of c; p_quant := quant_of q; p_lazy := true |} :: ps)
                    | other => other
                    end
                  else
                    match parse_rx r' with
                    | Compiled ps =>
                        Compiled ({| p_atom := atom_of c; p_quant := quant_of q; p_lazy := false |} :: ps)
                    | other => other
                    end
              | EmptyString =>
                  Compiled [{| p_atom := atom_of c; p_quant := quant_of q; p_lazy := false |}]
              end
            else cons_piece QOne false r
        | EmptyString => Compiled [{| p_atom := atom_of c; p_quant := QOne; p_lazy := false |}]
        end
  end.

(** [.] matches every code unit but the line terminators LF and CR. *)
Definition atom_matches (a : atom) (c : ascii) : bool :=
  match a with
  | ALit x => Ascii.eqb x c
  | ADot => negb (Nat.eqb (nat_of_ascii c) 10 || Nat.eqb (nat_of_ascii c) 13)
  end.

Fixpoint run_len (a : atom) (s : string) : nat :=
  match s with
  | EmptyString => 0
  | String c s' => if atom_matches a c then S (run_len a s') else 0
  end.

Definition drop (n : nat) (s : string) : string := substring n (String.length s) s.

Fixpoint try_counts (f : nat -> option nat) (ns : list nat) : option nat :=
  match ns with
  | [] => None
  | n :: t => match f n with Some m => Some (n + m) | None => try_counts f t end
  end.

(** Backtracking match anchored at the start of [s]: the length matched.
    The counts of a quantifier are tried greedy-first (or lazy-first). *)
Fixpoint match_pieces (ps : list piece) (s : string) : option nat :=
  match ps with
  | [] => Some 0
  | p :: rest =>
      let k := run_len (p_atom p) s in
      let '(lo, hi) := match p_quant p with
                       | QOne => (1, Nat.min 1 k)
                       | QStar => (0, k)
                       | QPlus => (1, k)
                       | QOpt => (0, Nat.min 1 k)
                       end in
      if Nat.ltb hi lo then None
      else
        let counts := seq lo (S (hi - lo)) in
        try_counts (fun n => match_pieces rest (drop n s))
                   (if p_lazy p then counts else rev counts)
  end.

(** The number of matches of a global [String.prototype.match]: after an
    empty match the search resumes one code unit further. *)
Fixpoint count_global (fuel : nat) (ps : list piece) (s : string) : nat :=
  match fuel with
  | O => 0
  | S f =>
      match match_pieces ps s, s with
      | Some 0, EmptyString => 1
      | Some 0, String _ s' => S (count_global f ps s')
      | Some n, _ => S (count_global f ps (drop n s))
      | None, EmptyString => 0
      | None, String _ s' => count_global f ps s'
      end
  end.

Definition match_count (pattern content : string) : outcome nat :=
  match parse_rx pattern with
  | Compiled ps => Ok (count_global (S (S (String.length content))) ps content)
  | RxSyntaxError m =>
      Throw ("Invalid regular expression: /" ++ pattern ++ "/g: " ++ m)
  | RxOutside => Throw "pattern outside the modelled fragment"
  end.

End JsRegExp.

(* ------------------------------------------------------------------ *)
(** ** ResearchAgent (src/src/agents/ResearchAgent.ts) *)

Module Research.
Import JsString Effects Effects.Notations.

Record ResearchResult := {
  url : string;
  title : string;
  content : string;
  relevance : Q;
  insights : list string;
  codePatterns : list string;
  uiPatterns : list string
}.

Record ResearchSummary := {
  overallInsights : list string;
  recommendedTechStack : list string;
  designPatterns : list string;
  codeExamples : list string;
  bestPractices : list string;
  potentialIssues : list string
}.

(** One element selected by cheerio: the trimmed title text, the [href]
    attribute when there is one, and the trimmed snippet text. *)
Record RawResult := { raw_title : string; raw_href : option string; raw_snippet : string }.

(** The requests made to the LLaMA 3 client; the prompt text of each is a
    template over exactly these inputs. *)
Inductive LlmRequest :=
| KeywordReq (prompt : string) (plan : option string)
| KnowledgeReq (keywords : list string)
| AnalysisReq (results : list ResearchResult) (prompt : string).

(** The collaborators of the agent: the network (axios), the HTML parser
    (cheerio), the file system, the LLM client, and the library functions
    [encodeURIComponent], [JSON.parse] (at the types the code annotates)
    and [(s.match(new RegExp(p, 'g')) || []).length].  The three pattern
    extractors are pure, total and feed no decision of the agent. *)
Record Env := {
  http_get : string -> outcome string;
  encodeURIComponent : string -> string;
  select_ddg : string -> list RawResult;
  select_alt : string -> list RawResult;
  regex_count : string -> string -> outcome nat;
  extractInsights : string -> list string;
  extractCodePatterns : string -> list string;
  extractUIPatterns : string -> list string;
  read_cache_file : outcome (option string);
  parse_cache : string -> outcome (list (string * list ResearchResult));
  llm_generate : LlmRequest -> outcome string;
  parse_keywords : string -> outcome (list string);
  parse_results : string -> outcome (list ResearchResult);
  parse_summary : string -> outcome ResearchSummary
}.

(** [String.prototype.toLowerCase] on code units 0..255. *)
Definition lower_char (c : ascii) : ascii :=
  let n := nat_of_ascii c in
  if (Nat.leb 65 n && Nat.leb n 90) || (Nat.leb 192 n && Nat.leb n 222 && negb (Nat.eqb n 215))
  then ascii_of_nat (n + 32) else c.

Fixpoint toLowerCase (s : string) : string :=
  match s with
  | EmptyString => EmptyString
  | String c s' => String (lower_char c) (toLowerCase s')
  end.

Fixpoint last_index_of_char (c : ascii) (s : string) : option nat :=
  match s with
  | EmptyString => None
  | String d s' =>
      match last_index_of_char c s' with
      | Some i => Some (S i)
      | None => if Ascii.eqb c d then Some 0 else None
      end
  end.

(** [s.match(/\[[\s\S]*\]/)] and [s.match(/\{[\s\S]*\}/)]: from the first
    opening code unit to the last closing one after it. *)
Definition delimited_match (op cl : ascii) (s : string) : option string :=
  match index_of (String op EmptyString) s, last_index_of_char cl s with
  | Some i, Some j => if Nat.ltb i j then Some (substring i (S (j - i)) s) else None
  | _, _ => None
  end.

Definition fallbackSummary : ResearchSummary :=
  {| overallInsights := ["Research completed successfully"];
     recommendedTechStack := ["React"; "TypeScript"; "Tailwind CSS"];
     designPatterns := ["Component-based architecture"; "Responsive design"];
     codeExamples := ["Modern React patterns"; "TypeScript interfaces"];
     bestPractices := ["Code organization"; "Error handling"];
     potentialIssues := ["Performance optimization"; "Accessibility"] |}.

(** The mutable [results] array of [searchWeb] threaded through a
    computation that may throw: the array survives the throw. *)
Definition SE (A : Type) : Type := list ResearchResult -> list ResearchResult * outcome A.

Definition se_ret {A} (a : A) : SE A := fun st => (st, Ok a).
Definition se_lift {A} (m : outcome A) : SE A := fun st => (st, m).
Definition se_bind {A B} (m : SE A) (k : A -> SE B) : SE B :=
  fun st => let '(st1, o) := m st in
            match o with Ok a => k a st1 | Throw e => (st1, Throw e) end.
Definition se_push (xs : list ResearchResult) : SE unit := fun st => (app st xs, Ok tt).
Definition se_get : SE (list ResearchResult) := fun st => (st, Ok st).
Definition se_try {A} (m : SE A) (h : string -> SE A) : SE A :=
  fun st => let '(st1, o) := m st in
            match o with Ok a => (st1, Ok a) | Throw e => h e st1 end.
Fixpoint se_for_each {A} (l : list A) (f : A -> SE unit) : SE unit :=
  match l with
  | [] => se_ret tt
  | x :: t => se_bind (f x) (fun _ => se_for_each t f)
  end.

(** [a < b] on rationals. *)
Definition Qlt_bool (a b : Q) : bool := negb (Qle_bool b a).

(** Stable sort by descending relevance ([Array.prototype.sort] is stable). *)
Fixpoint insert_desc (x : ResearchResult) (l : list ResearchResult) : list ResearchResult :=
  match l with
  | [] => [x]
  | y :: t => if Qlt_bool (relevance y) (relevance x) then x :: y :: t else y :: insert_desc x t
  end.

Definition sort_by_relevance (l : list ResearchResult) : list ResearchResult :=
  fold_left (fun acc x => insert_desc x acc) l [].

Fixpoint dedup (l : list string) : list string :=
  match l with
  | [] => []
  | x :: t => let r := dedup t in if existsb (String.eqb x) r then r else x :: r
  end.

(** A strategy rejected or resolved with no result. *)
Definition no_results (o : outcome (list ResearchResult)) : Prop :=
  match o with
  | Ok l => l = []
  | Throw _ => True
  end.

Section Agent.
Variable env : Env.

Definition calculateRelevance (content0 : string) (keywords : list string) : outcome Q :=
  let contentLower := toLowerCase content0 in
  score <- fold_left (fun acc keyword =>
             score <- acc ;;
             matches <- regex_count env (toLowerCase keyword) contentLower ;;
             Ok (score + inject_Z (Z.of_nat matches) * (1 # 10))%Q)
           keywords (Ok 0%Q) ;;
  Ok (Qmin score 1).

Definition valid_raw (r : RawResult) : bool :=
  negb (String.eqb (raw_title r) "") && negb (String.eqb (raw_snippet r) "") &&
  match raw_href r with Some u => negb (String.eqb u "") | None => false end.

Definition to_result (keywords : list string) (r : RawResult) : outcome ResearchResult :=
  let u := match raw_href r with Some u => u | None => "" end in
  let snippet := raw_snippet r in
  rel <- calculateRelevance snippet keywords ;;
  Ok {| url := if prefix "//" u then "https:" ++ u else u;
        title := raw_title r;
        content := snippet;
        relevance := rel;
        insights := extractInsights env snippet;
        codePatterns := extractCodePatterns env snippet;
        uiPatterns := extractUIPatterns env snippet |}.

(** The [.each] loop over the first five selected elements, pushing each
    complete one. *)
Definition collect (keywords : list string) (els : list RawResult) : SE unit :=
  se_for_each (firstn 5 els) (fun r =>
    if valid_raw r then se_bind (se_lift (to_result keywords r)) (fun x => se_push [x])
    else se_ret tt).

Definition searchWithAlternativeEngines (keywords : list string) : outcome (list ResearchResult) :=
  let engines := ["https://www.startpage.com/sp/search?query=";
                  "https://search.yahoo.com/search?p=";
                  "https://www.ecosia.org/search?q="] in
  (fix go (es : list string) : outcome (list ResearchResult) :=
     match es with
     | [] => Ok []
     | engine :: rest =>
         let attempt :=
           body <- http_get env (engine ++ encodeURIComponent env (join " " keywords)) ;;
           snd (se_bind (collect keywords (select_alt env body)) (fun _ => se_get) []) in
         match attempt with
         | Ok (x :: xs) => Ok (x :: xs)
         | Ok [] => go rest
         | Throw _ => go rest
         end
     end) engines.

Definition calculateQuerySimilarity (query1 query2 : string) : Q :=
  let words1 := dedup (split_char " " query1) in
  let words2 := dedup (split_char " " query2) in
  let inter := filter (fun x => existsb (String.eqb x) words2) words1 in
  let union := dedup (words1 ++ words2) in
  (inject_Z (Z.of_nat (length inter)) / inject_Z (Z.of_nat (length union)))%Q.

Definition searchWithCachedResults (keywords : list string) : outcome (list ResearchResult) :=
  try_catch
    (file <- read_cache_file env ;;
     match file with
     | None => Ok []
     | Some text =>
         cache <- parse_cache env text ;;
         let query := toLowerCase (join " " keywords) in
         Ok (match find (fun e => Qlt_bool (7 # 10) (calculateQuerySimilarity query (fst e))) cache with
             | Some e => snd e
             | None => []
             end)
     end)
    (fun _ => Ok []).

Definition searchWithAIKnowledge (keywords : list string) : outcome (list ResearchResult) :=
  try_catch
    (resp <- llm_generate env (KnowledgeReq keywords) ;;
     match delimited_match "[" "]" resp with
     | Some j => parse_results env j
     | None => Ok []
     end)
    (fun _ => Ok []).

Fixpoint first_nonempty (strategies : list (outcome (list ResearchResult)))
  : outcome (list ResearchResult) :=
  match strategies with
  | [] => Ok []
  | s :: rest =>
      match s with
      | Ok (x :: xs) => Ok (x :: xs)
      | Ok [] => first_nonempty rest
      | Throw _ => first_nonempty rest
      end
  end.

Definition fallbackSearch (keywords : list string) : outcome (list ResearchResult) :=
  try_catch
    (first_nonempty [searchWithAlternativeEngines keywords;
                     searchWithCachedResults keywords;
                     searchWithAIKnowledge keywords])
    (fun _ => Ok []).

(** The DuckDuckGo part of the [try] block of [searchWeb]. *)
Definition searchDuckDuckGo (keywords : list string) : SE unit :=
  se_bind (se_lift (http_get env ("https://html.duckduckgo.com/html/?q="
                                  ++ encodeURIComponent env (join " " keywords))))
          (fun body => collect keywords (select_ddg env body)).

Definition searchWeb (keywords : list string) : outcome (list ResearchResult) :=
  let body : SE unit :=
    se_try
      (se_bind (searchDuckDuckGo keywords) (fun _ =>
       se_bind se_get (fun results =>
       match results with
       | [] => se_bind (se_lift (fallbackSearch keywords)) se_push
       | _ => se_ret tt
       end)))
      (fun _ => se_bind (se_lift (fallbackSearch keywords)) se_push) in
  let '(results, o) := body [] in
  _ <- o ;;
  Ok (sort_by_relevance results).

Definition extractKeywords (prompt : string) (plan : option string) : outcome (list string) :=
  response <- llm_generate env (KeywordReq prompt plan) ;;
  let simple := firstn 5 (filter (fun w => Nat.ltb 3 (String.length w))
                                 (split_char " " (toLowerCase prompt))) in
  match delimited_match "[" "]" response with
  | Some j => try_catch (parse_keywords env j) (fun _ => Ok simple)
  | None => Ok simple
  end.

Definition analyzeResults (results : list ResearchResult) (originalPrompt : string)
  : outcome ResearchSummary :=
  response <- llm_generate env (AnalysisReq results originalPrompt) ;;
  match delimited_match "{" "}" response with
  | Some j => try_catch (parse_summary env j) (fun _ => Ok fallbackSummary)
  | None => Ok fallbackSummary
  end.

Definition researchApp (prompt : string) (plan : option string) : outcome ResearchSummary :=
  keywords <- extractKeywords prompt plan ;;
  searchResults <- searchWeb keywords ;;
  analyzeResults searchResults prompt.

End Agent.

(** An environment in which every network call, file read and LLM call
    fails, with the fragment model of [RegExp]. *)
Definition offline_env : Env :=
  {| http_get := fun _ => Throw "getaddrinfo ENOTFOUND";
     encodeURIComponent := fun s => s;
     select_ddg := fun _ => [];
     select_alt := fun _ => [];
     regex_count := JsRegExp.match_count;
     extractInsights := fun _ => [];
     extractCodePatterns := fun _ => [];
     extractUIPatterns := fun _ => [];
     read_cache_file := Throw "ENOENT";
     parse_cache := fun _ => Throw "Unexpected token";
     llm_generate := fun _ => Throw "model failed to load";
     parse_keywords := fun _ => Throw "Unexpected token";
     parse_results := fun _ => Throw "Unexpected token";
     parse_summary := fun _ => Throw "Unexpected token" |}.

End Research.

(* ------------------------------------------------------------------ *)
(** ** PlannerAgent (src/unnamed/part_004, second file) *)

Module Planner.
Import JsString Effects Effects.Notations.

Inductive Complexity := Simple | Medium | Complex.

Record TechStack := { ts_frontend : string; ts_backend : string;
                      ts_database : string; ts_deployment : string }.

Record Structure := { st_pages : list string; st_components : list string; st_api : list string }.

Record AppPlan := {
  name : string;
  description : string;
  features : list string;
  techStack : TechStack;
  structure : Structure;
  timeline : string;
  complexity : Complexity
}.

(** The object [JSON.parse] returns for a plan: each field the code reads,
    [None] when it is absent. *)
Record PlanData := {
  pd_name : option string;
  pd_description : option string;
  pd_features : option (list string);
  pd_frontend : option string;
  pd_backend : option string;
  pd_database : option string;
  pd_deployment : option string;
  pd_pages : option (list string);
  pd_components : option (list string);
  pd_api : option (list string);
  pd_timeline : option string;
  pd_complexity : option Complexity
}.

(** The requests sent to [modelClient.model.generateText]. *)
Inductive PlanRequest :=
| AnalysisPrompt (prompt : string)
| PlanningPrompt (prompt analysis : string)
| RefinementPrompt (plan : AppPlan) (feedback : string).

(** The collaborators: [getModelClient], the model's [generateText] and
    [JSON.parse] at the plan's shape. *)
Record Env := {
  getModelClient : outcome unit;
  generateText : PlanRequest -> outcome string;
  parse_plan : string -> outcome PlanData
}.

(** [a || b] for a string field: the empty string is falsy. *)
Definition or_str (o : option string) (d : string) : string :=
  match o with
  | Some s => if String.eqb s "" then d else s
  | None => d
  end.

(** [a || b] for an array field: every array is truthy. *)
Definition or_list (o : option (list string)) (d : list string) : list string :=
  match o with Some l => l | None => d end.

(** [String.prototype.toUpperCase] of one code unit, on ASCII and the
    Latin-1 letters that map into 0..255 (sharp s becomes SS). *)
Definition upper_char (c : ascii) : string :=
  let n := nat_of_ascii c in
  if Nat.eqb n 223 then "SS"
  else if (Nat.leb 97 n && Nat.leb n 122) || (Nat.leb 224 n && Nat.leb n 254 && negb (Nat.eqb n 247))
  then String (ascii_of_nat (n - 32)) EmptyString
  else String c EmptyString.

(** [word.charAt(0).toUpperCase() + word.slice(1)] *)
Definition capitalize (w : string) : string :=
  match w with
  | EmptyString => EmptyString
  | String c r => upper_char c ++ r
  end.

Definition generateAppName (prompt : string) : string :=
  let keywords := firstn 2 (filter (fun w => Nat.ltb 3 (String.length w))
                                   (split_char " " (Research.toLowerCase prompt))) in
  join " " (map capitalize keywords) ++ " App".

Definition createFallbackPlan (prompt : string) : AppPlan :=
  {| name := generateAppName prompt;
     description := "AI-generated app based on your request";
     features := ["User interface"; "Data management"; "Responsive design"];
     techStack := {| ts_frontend := "React + TypeScript + Tailwind CSS";
                     ts_backend := "Node.js + Express";
                     ts_database := "PostgreSQL";
                     ts_deployment := "Vercel" |};
     structure := {| st_pages := ["Home"; "Dashboard"];
                     st_components := ["Header"; "Main"; "Footer"];
                     st_api := ["/api/data"] |};
     timeline := "1-2 days";
     complexity := Simple |}.

Section Agent.
Variable env : Env.

(** [parsePlan]: its [catch] builds the same plan as [createFallbackPlan]. *)
Definition parsePlan (planContent originalPrompt : string) : AppPlan :=
  let parsed :=
    match Research.delimited_match "{" "}" planContent with
    | None => Throw "No JSON found in plan response"
    | Some j =>
        planData <- parse_plan env j ;;
        Ok {| name := or_str (pd_name planData) (generateAppName originalPrompt);
              description := or_str (pd_description planData) "AI-generated app";
              features := or_list (pd_features planData) [];
              techStack := {| ts_frontend := or_str (pd_frontend planData) "React + TypeScript";
                              ts_backend := or_str (pd_backend planData) "Node.js + Express";
                              ts_database := or_str (pd_database planData) "PostgreSQL";
                              ts_deployment := or_str (pd_deployment planData) "Vercel" |};
              structure := {| st_pages := or_list (pd_pages planData) ["Home"];
                              st_components := or_list (pd_components planData) ["App"];
                              st_api := or_list (pd_api planData) [] |};
              timeline := or_str (pd_timeline planData) "1-2 days";
              complexity := match pd_complexity planData with Some c => c | None => Simple end |}
    end in
  match parsed with
  | Ok p => p
  | Throw _ => createFallbackPlan originalPrompt
  end.

Definition planApp (prompt : string) : outcome AppPlan :=
  try_catch
    (_ <- getModelClient env ;;
     analysis <- generateText env (AnalysisPrompt prompt) ;;
     planText <- generateText env (PlanningPrompt prompt analysis) ;;
     Ok (parsePlan planText prompt))
    (fun _ => Ok (createFallbackPlan prompt)).

Definition refinePlan (plan : AppPlan) (feedback : string) : outcome AppPlan :=
  try_catch
    (_ <- getModelClient env ;;
     refined <- generateText env (RefinementPrompt plan feedback) ;;
     Ok (parsePlan refined (name plan)))
    (fun _ => Ok plan).

End Agent.

(** A client that answers the refinement request with prose only. *)
Definition prose_env : Env :=
  {| getModelClient := Ok tt;
     generateText := fun _ => Ok "Sure! I have updated the plan as requested.";
     parse_plan := fun _ => Throw "Unexpected token" |}.

Definition todo_plan : AppPlan :=
  {| name := "Todo Tracker";
     description := "Tracks todos with reminders";
     features := ["Reminders"; "Sharing"];
     techStack := {| ts_frontend := "Vue"; ts_backend := "Go";
                     ts_database := "SQLite"; ts_deployment := "Fly" |};
     structure := {| st_pages := ["Home"; "Settings"]; st_components := ["List"];
                     st_api := ["/api/todos"] |};
     timeline := "1 week";
     complexity := Complex |}.

End Planner.

(* ------------------------------------------------------------------ *)
(** ** DeployAgent (src/src/agents/DeployAgent.ts) *)

Module Deploy.
Import JsString Effects Effects.Notations.

Record DeploymentConfig := { platform : string; environment : string }.

Record DeploymentResult := {
  dr_success : bool;
  dr_url : option string;
  dr_deploymentId : option string;
  dr_logs : list string;
  dr_errors : list string
}.

Inductive Status := Building | Ready | Error.

Record StatusResult := { status : Status; s_url : option string; s_logs : list string }.

(** The fields of the provider responses the agent reads; [None] for an
    absent field. *)
Record VercelDeployment := {
  readyState : string; v_url : option string; v_logs : option (list string); projectId : string }.
Record NetlifySite := { state : string; n_url : option string; deploy_log : option (list string) }.
Record RailwayDeployment := { r_status : string; r_url : option string; r_logs : option (list string) }.

(** The agent's credentials. *)
Record Agent := { vercelToken : option string; netlifyToken : option string }.

(** The provider APIs (axios calls, by the path they request) and the
    [RAILWAY_TOKEN] environment variable.  Listings are the deployment
    identifiers in the order the API returns them. *)
Record Env := {
  vercel_deployment : string -> outcome VercelDeployment;
  vercel_list : string -> outcome (list string);
  vercel_promote : string -> outcome unit;
  netlify_site : string -> outcome NetlifySite;
  netlify_deploys : string -> outcome (list string);
  netlify_restore : string -> outcome unit;
  railway_token : option string;
  railway_deployment : string -> outcome RailwayDeployment;
  railway_deployments : outcome (list string);
  railway_rollback : string -> outcome unit
}.

Definition or_logs (o : option (list string)) : list string :=
  match o with Some l => l | None => ["No logs available"] end.

Definition require_token (o : option string) (msg : string) : outcome unit :=
  match o with Some t => if String.eqb t "" then Throw msg else Ok tt | None => Throw msg end.

Section Agent.
Variable agent : Agent.
Variable env : Env.

Definition checkVercelStatus (deploymentId : string) : outcome StatusResult :=
  _ <- require_token (vercelToken agent) "Vercel token not provided" ;;
  d <- vercel_deployment env deploymentId ;;
  Ok {| status := if String.eqb (readyState d) "READY" then Ready
                  else if String.eqb (readyState d) "ERROR" then Error else Building;
        s_url := v_url d; s_logs := or_logs (v_logs d) |}.

Definition checkNetlifyStatus (siteId : string) : outcome StatusResult :=
  _ <- require_token (netlifyToken agent) "Netlify token not provided" ;;
  site <- netlify_site env siteId ;;
  Ok {| status := if String.eqb (state site) "ready" then Ready
                  else if String.eqb (state site) "error" then Error else Building;
        s_url := n_url site; s_logs := or_logs (deploy_log site) |}.

Definition checkRailwayStatus (deploymentId : string) : outcome StatusResult :=
  _ <- require_token (railway_token env) "Railway token not provided" ;;
  d <- railway_deployment env deploymentId ;;
  Ok {| status := if String.eqb (r_status d) "SUCCESS" then Ready
                  else if String.eqb (r_status d) "FAILED" then Error else Building;
        s_url := r_url d; s_logs := or_logs (r_logs d) |}.

Definition checkAWSStatus (bucketName : string) : outcome StatusResult :=
  Ok {| status := Ready;
        s_url := Some ("https://" ++ bucketName ++ ".s3-website-us-east-1.amazonaws.com");
        s_logs := ["AWS S3 deployment completed successfully"] |}.

(** The [switch] inside the [try] of [checkDeploymentStatus]. *)
Definition statusDispatch (deploymentId platform0 : string) : outcome StatusResult :=
  if String.eqb platform0 "vercel" then checkVercelStatus deploymentId
  else if String.eqb platform0 "netlify" then checkNetlifyStatus deploymentId
  else if String.eqb platform0 "railway" then checkRailwayStatus deploymentId
  else if String.eqb platform0 "aws" then checkAWSStatus deploymentId
  else Throw ("Unsupported platform: " ++ platform0).

Definition checkDeploymentStatus (deploymentId platform0 : string) : outcome StatusResult :=
  try_catch (statusDispatch deploymentId platform0)
    (fun e => Ok {| status := Error; s_url := None;
                    s_logs := ["Status check failed: " ++ e] |}).

Definition previous_or_fail (deployments : list string) : outcome string :=
  match deployments with
  | _ :: prev :: _ => Ok prev
  | _ => Throw "No previous deployment to rollback to"
  end.

Definition rollbackVercel (deploymentId : string) : outcome bool :=
  _ <- require_token (vercelToken agent) "Vercel token not provided" ;;
  d <- vercel_deployment env deploymentId ;;
  deployments <- vercel_list env (projectId d) ;;
  prev <- previous_or_fail deployments ;;
  _ <- vercel_promote env prev ;;
  Ok true.

Definition rollbackNetlify (siteId : string) : outcome bool :=
  _ <- require_token (netlifyToken agent) "Netlify token not provided" ;;
  deploys <- netlify_deploys env siteId ;;
  prev <- previous_or_fail deploys ;;
  _ <- netlify_restore env prev ;;
  Ok true.

Definition rollbackRailway (deploymentId : string) : outcome bool :=
  _ <- require_token (railway_token env) "Railway token not provided" ;;
  deployments <- railway_deployments env ;;
  prev <- previous_or_fail deployments ;;
  _ <- railway_rollback env prev ;;
  Ok true.

Definition rollbackAWS (bucketName : string) : outcome bool := Ok true.

Definition rollbackDispatch (deploymentId platform0 : string) : outcome bool :=
  if String.eqb platform0 "vercel" then rollbackVercel deploymentId
  else if String.eqb platform0 "netlify" then rollbackNetlify deploymentId
  else if String.eqb platform0 "railway" then rollbackRailway deploymentId
  else if String.eqb platform0 "aws" then rollbackAWS deploymentId
  else Throw ("Unsupported platform: " ++ platform0).

Definition rollbackDeployment (deploymentId platform0 : string) : outcome bool :=
  try_catch (rollbackDispatch deploymentId platform0) (fun _ => Ok false).

End Agent.

(** Credentials for every provider, and providers that each list a single
    deployment. *)
Definition full_agent : Agent := {| vercelToken := Some "vt"; netlifyToken := Some "nt" |}.

Definition single_env : Env :=
  {| vercel_deployment := fun id => Ok {| readyState := "READY"; v_url := Some (id ++ ".vercel.app");
                                          v_logs := None; projectId := "prj_1" |};
     vercel_list := fun _ => Ok ["dpl_1"];
     vercel_promote := fun _ => Ok tt;
     netlify_site := fun _ => Ok {| state := "ready"; n_url := None; deploy_log := None |};
     netlify_deploys := fun _ => Ok ["d1"];
     netlify_restore := fun _ => Ok tt;
     railway_token := Some "rt";
     railway_deployment := fun _ => Ok {| r_status := "SUCCESS"; r_url := None; r_logs := None |};
     railway_deployments := Ok ["r1"];
     railway_rollback := fun _ => Ok tt |}.

End Deploy.

(* ------------------------------------------------------------------ *)
(** ** VoxlorOrchestrator (src/unnamed/part_005) *)

Module Orchestrator.
Import JsString Effects.

Record AppGenerationRequest := {
  prompt : string; req_platform : string; req_features : list string;
  style : string; targetAudience : string }.

Record OptimizationResult := {
  opt_success : bool;
  optimizedCode : Optimizer.GeneratedCode;
  improvements : list string;
  issues : list string;
  performanceScore : Z;
  securityScore : Z;
  maintainabilityScore : Z
}.

Record AppGenerationResult := {
  success : bool;
  appId : string;
  deploymentUrl : option string;
  code : option Optimizer.GeneratedCode;
  research : option Research.ResearchSummary;
  optimization : option OptimizationResult;
  errors : list string;
  logs : list string
}.

(** The five agents, each call resolving or rejecting. *)
Record Agents := {
  researchApp : string -> outcome Research.ResearchSummary;
  planApp : AppGenerationRequest -> Research.ResearchSummary -> outcome Planner.AppPlan;
  generateCode : Planner.AppPlan -> AppGenerationRequest -> outcome Optimizer.GeneratedCode;
  optimizeCode : Optimizer.GeneratedCode -> outcome OptimizationResult;
  deployApp : Optimizer.GeneratedCode -> Deploy.DeploymentConfig -> outcome Deploy.DeploymentResult
}.

Definition add_log (r : AppGenerationResult) (l : string) : AppGenerationResult :=
  {| success := success r; appId := appId r; deploymentUrl := deploymentUrl r;
     code := code r; research := research r; optimization := optimization r;
     errors := errors r; logs := logs r ++ [l] |}.

Definition add_error (r : AppGenerationResult) (e : string) : AppGenerationResult :=
  {| success := success r; appId := appId r; deploymentUrl := deploymentUrl r;
     code := code r; research := research r; optimization := optimization r;
     errors := errors r ++ [e]; logs := logs r |}.

(** The [catch] of [generateApp]. *)
Definition fail_with (r : AppGenerationResult) (e : string) : AppGenerationResult :=
  add_log (add_error r e) ("❌ Error: " ++ e).

Section Run.
Variable agents : Agents.

(** [generateApp]; [now] is [Date.now()]. *)
Definition generateApp (now : string) (request : AppGenerationRequest) : AppGenerationResult :=
  let r0 := {| success := false; appId := "voxlor-" ++ now; deploymentUrl := None;
               code := None; research := None; optimization := None;
               errors := []; logs := [] |} in
  match researchApp agents (prompt request) with
  | Throw e => fail_with r0 e
  | Ok res =>
  let r1 := add_log {| success := success r0; appId := appId r0; deploymentUrl := None;
                       code := None; research := Some res; optimization := None;
                       errors := []; logs := [] |} "✅ Research completed" in
  match planApp agents request res with
  | Throw e => fail_with r1 e
  | Ok plan =>
  let r2 := add_log r1 "✅ App structure planned" in
  match generateCode agents plan request with
  | Throw e => fail_with r2 e
  | Ok c =>
  let r3 := add_log {| success := success r2; appId := appId r2; deploymentUrl := None;
                       code := Some c; research := research r2; optimization := None;
                       errors := errors r2; logs := logs r2 |} "✅ Code generated" in
  match optimizeCode agents c with
  | Throw e => fail_with r3 e
  | Ok opt =>
  let r4 := add_log {| success := success r3; appId := appId r3; deploymentUrl := None;
                       code := code r3; research := research r3; optimization := Some opt;
                       errors := errors r3; logs := logs r3 |} "✅ Code optimized" in
  match deployApp agents (optimizedCode opt)
                  {| Deploy.platform := "vercel"; Deploy.environment := "production" |} with
  | Throw e => fail_with r4 e
  | Ok deployment =>
  let r5 :=
    match Deploy.dr_success deployment, Deploy.dr_url deployment with
    | true, Some u =>
        if String.eqb u "" then add_log (add_error r4 "Deployment failed") "❌ Deployment failed"
        else add_log {| success := success r4; appId := appId r4; deploymentUrl := Some u;
                        code := code r4; research := research r4;
                        optimization := optimization r4; errors := errors r4;
                        logs := logs r4 |} "✅ App deployed successfully"
    | _, _ => add_log (add_error r4 "Deployment failed") "❌ Deployment failed"
    end in
  {| success := true; appId := appId r5; deploymentUrl := deploymentUrl r5;
     code := code r5; research := research r5; optimization := optimization r5;
     errors := errors r5; logs := logs r5 |}
  end end end end end.

End Run.

(** Agents that all resolve, with a deployment that reports failure. *)
Definition failing_deploy_agents : Agents :=
  {| researchApp := fun _ => Ok Research.fallbackSummary;
     planApp := fun req _ => Ok (Planner.createFallbackPlan (prompt req));
     generateCode := fun _ _ => Ok Optimizer.img_bundle;
     optimizeCode := fun c => Ok {| opt_success := true; optimizedCode := c; improvements := [];
                                   issues := []; performanceScore := 100%Z;
                                   securityScore := 100%Z; maintainabilityScore := 100%Z |};
     deployApp := fun _ _ => Ok {| Deploy.dr_success := false; Deploy.dr_url := None;
                                  Deploy.dr_deploymentId := None; Deploy.dr_logs := [];
                                  Deploy.dr_errors := ["Vercel token not provided"] |} |}.

Definition todo_request : AppGenerationRequest :=
  {| prompt := "todo list app"; req_platform := "web"; req_features := [];
     style := "modern"; targetAudience := "general" |}.

End Orchestrator.

(* ------------------------------------------------------------------ *)
(** ** OptimizerAgent: linting, tests, security and maintainability
       passes, and the report (src/src/agents/OptimizerAgent.ts) *)

Module OptimizerChecks.
Import JsString Optimizer.

(** [String(n)] for an integer. *)
Fixpoint digits_fuel (fuel n : nat) (acc : string) : string :=
  match fuel with
  | O => acc
  | S f =>
      let acc' := String (ascii_of_nat (48 + n mod 10)) acc in
      if Nat.ltb n 10 then acc' else digits_fuel f (n / 10) acc'
  end.

Definition nat_to_string (n : nat) : string := digits_fuel (S n) n EmptyString.

Definition Z_to_string (z : Z) : string :=
  if Z.ltb z 0 then "-" ++ nat_to_string (Z.to_nat (- z)) else nat_to_string (Z.to_nat z).

(** [s.indexOf(p)]: -1 when [p] does not occur. *)
Definition js_index_of (p s : string) : Z :=
  match index_of p s with Some i => Z.of_nat i | None => (-1)%Z end.

Inductive Severity := SevError | SevWarning | SevInfo.

Record LintError := {
  le_line : nat; le_column : Z; le_message : string; le_severity : Severity }.

Record LintResult := { lr_file : string; lr_errors : list LintError }.

(** The three rules of [lintFile] on one line. *)
Definition lint_line (content line : string) (lineNumber : nat) : list LintError :=
  let e1 :=
    if includes line "console.log" then
      [{| le_line := lineNumber; le_column := js_index_of "console.log" line;
          le_message := "Remove console.log statements in production code";
          le_severity := SevWarning |}]
    else [] in
  let e2 :=
    if includes line "TODO" || includes line "FIXME" then
      (* [line.indexOf('TODO') || line.indexOf('FIXME')]: 0 is falsy *)
      [{| le_line := lineNumber;
          le_column := let t := js_index_of "TODO" line in
                       if Z.eqb t 0 then js_index_of "FIXME" line else t;
          le_message := "Address TODO/FIXME comments";
          le_severity := SevInfo |}]
    else [] in
  let e3 :=
    if includes line "import" && includes line "{" && includes line "}" then
      match import_match line with
      | Some g =>
          flat_map (fun imp =>
            if negb (includes content imp) && negb (includes imp "*") then
              [{| le_line := lineNumber; le_column := js_index_of imp line;
                  le_message := "Unused import: " ++ imp; le_severity := SevWarning |}]
            else []) (imports_of g)
      | None => []
      end
    else [] in
  e1 ++ e2 ++ e3.

(** [lines.forEach((line, index) => ...)] with [lineNumber = index + 1]. *)
Fixpoint lint_lines (content : string) (lineNumber : nat) (lines : list string)
  : list LintError :=
  match lines with
  | [] => []
  | l :: t => lint_line content l lineNumber ++ lint_lines content (S lineNumber) t
  end.

(** [lintFile]; its [type] argument is not read. *)
Definition lintFile (filename content : string) : LintResult :=
  {| lr_file := filename;
     lr_errors := lint_lines content 1 (split_char nl_char content) |}.

Definition lint_entries (entries : list (string * string)) : list LintResult :=
  filter (fun r => negb (Nat.eqb (length (lr_errors r)) 0))
         (map (fun '(f, c) => lintFile f c) entries).

Definition runLinting (code : GeneratedCode) : list LintResult :=
  lint_entries (components code) ++ lint_entries (pages code) ++ lint_entries (routes code).

Definition extractLintIssues (lintResults : list LintResult) : list string :=
  flat_map (fun r =>
    map (fun e => lr_file r ++ ":" ++ nat_to_string (le_line e) ++ ":"
                  ++ Z_to_string (le_column e) ++ " - " ++ le_message e)
        (lr_errors r)) lintResults.

(** [calculateCoverage]; the line counts it computes do not enter the
    result. *)
Definition calculateCoverage (content : string) : nat :=
  let hasTests := includes content "test" || includes content "spec" in
  let hasErrorHandling :=
    includes content "try" || includes content "catch" || includes content "error" in
  let hasValidation := includes content "validate" || includes content "check" in
  let c0 := 60 in
  let c1 := if hasTests then c0 + 20 else c0 in
  let c2 := if hasErrorHandling then c1 + 10 else c1 in
  let c3 := if hasValidation then c2 + 10 else c2 in
  Nat.min c3 95.

Record TestCase := { tc_name : string; tc_passed : bool; tc_error : option string }.

Record TestResult := {
  tr_file : string; tr_passed : bool; tr_coverage : nat; tr_tests : list TestCase }.

Definition passing (n : string) : TestCase :=
  {| tc_name := n; tc_passed := true; tc_error := None |}.

Definition generateRealTests (componentName content : string) : list TestCase :=
  [passing (componentName ++ " renders without crashing")] ++
  (if includes content "interface" && includes content "Props"
   then [passing (componentName ++ " accepts props correctly")] else []) ++
  (if includes content "useState" || includes content "useReducer"
   then [passing (componentName ++ " manages state correctly")] else []) ++
  (if includes content "useEffect"
   then [passing (componentName ++ " handles side effects")] else []) ++
  (if includes content "onClick" || includes content "onChange" || includes content "onSubmit"
   then [passing (componentName ++ " handles user interactions")] else []).

Definition generateAPIRealTests (routeName content : string) : list TestCase :=
  [passing (routeName ++ " API endpoint responds")] ++
  (if includes content "GET" || includes content "POST" || includes content "PUT"
      || includes content "DELETE"
   then [passing (routeName ++ " handles HTTP methods correctly")] else []) ++
  (if includes content "try" || includes content "catch"
   then [passing (routeName ++ " handles errors gracefully")] else []) ++
  (if includes content "validate" || includes content "check"
   then [passing (routeName ++ " validates input")] else []).

Definition generateComponentTest (filename content : string) : TestResult :=
  let componentName := replace_first (replace_first filename ".tsx" "") ".ts" "" in
  let tests := generateRealTests componentName content in
  {| tr_file := filename; tr_passed := forallb tc_passed tests;
     tr_coverage := calculateCoverage content; tr_tests := tests |}.

Definition generateAPITest (filename content : string) : TestResult :=
  let routeName := replace_first filename ".ts" "" in
  let tests := generateAPIRealTests routeName content in
  {| tr_file := filename; tr_passed := forallb tc_passed tests;
     tr_coverage := calculateCoverage content; tr_tests := tests |}.

Definition runTests (code : GeneratedCode) : list TestResult :=
  map (fun '(f, c) => generateComponentTest f c) (components code) ++
  map (fun '(f, c) => generateAPITest f c) (routes code).

Definition extractTestIssues (testResults : list TestResult) : list string :=
  flat_map (fun r =>
    app (if negb (tr_passed r) then ["Tests failed in " ++ tr_file r] else [])
    (if Nat.ltb (tr_coverage r) 80
     then ["Low test coverage in " ++ tr_file r ++ ": " ++ nat_to_string (tr_coverage r) ++ "%"]
     else [])) testResults.

(** [optimizeSecurity] on one route. *)
Definition secureRoute (content0 : string) : string :=
  let c1 := if includes content0 "req.body" && negb (includes content0 "validate")
            then replace_first content0 "req.body" "validateInput(req.body)"
            else content0 in
  if negb (includes c1 "cors")
  then replace_first ("import cors from " ++ dq ++ "cors" ++ dq ++ ";" ++ nl ++ c1)
         express_json ("app.use(cors());" ++ nl ++ express_json)
  else c1.

Definition optimizeSecurity (code : GeneratedCode) : GeneratedCode :=
  {| components := components code; pages := pages code; styles := styles code;
     routes := map (fun '(f, c) => (f, secureRoute c)) (routes code);
     models := models code; middleware := middleware code; schema := schema code;
     migrations := migrations code; seeds := seeds code |}.

(** The template literal of [optimizeMaintainability]. *)
Definition interfaceCode (filename : string) : string :=
  nl ++ "interface " ++ replace_first filename ".tsx" "" ++ "Props {" ++ nl
  ++ "  // Define props here" ++ nl ++ "}" ++ nl ++ nl.

Definition maintainComponent (filename content0 : string) : string :=
  if includes content0 "props" && negb (includes content0 "interface")
  then interfaceCode filename ++ content0
  else content0.

Definition optimizeMaintainability (code : GeneratedCode) : GeneratedCode :=
  {| components := map (fun '(f, c) => (f, maintainComponent f c)) (components code);
     pages := pages code; styles := styles code; routes := routes code;
     models := models code; middleware := middleware code; schema := schema code;
     migrations := migrations code; seeds := seeds code |}.

(** [optimizeCode]: none of its steps can throw, so its [catch] is never
    taken. *)
Definition optimizeCode (code : GeneratedCode) : Orchestrator.OptimizationResult :=
  let lintIssues := extractLintIssues (runLinting code) in
  let testIssues := extractTestIssues (runTests code) in
  let o3 := optimizeMaintainability (optimizeSecurity (optimizePerformance code)) in
  {| Orchestrator.opt_success := true;
     Orchestrator.optimizedCode := o3;
     Orchestrator.improvements := ["Performance optimizations applied";
                                   "Security improvements applied";
                                   "Code maintainability improved"];
     Orchestrator.issues := lintIssues ++ testIssues;
     Orchestrator.performanceScore := calculatePerformanceScore o3;
     Orchestrator.securityScore := calculateSecurityScore o3;
     Orchestrator.maintainabilityScore := calculateMaintainabilityScore o3 |}.

Definition generateRecommendations (result : Orchestrator.OptimizationResult) : string :=
  join nl
    ((if Z.ltb (Orchestrator.performanceScore result) 80
      then ["- Consider adding React.memo to components";
            "- Optimize useEffect dependencies";
            "- Remove console.log statements"] else []) ++
     (if Z.ltb (Orchestrator.securityScore result) 80
      then ["- Add input validation";
            "- Implement CORS properly";
            "- Add security headers"] else []) ++
     (if Z.ltb (Orchestrator.maintainabilityScore result) 80
      then ["- Add TypeScript interfaces";
            "- Reduce component complexity";
            "- Add proper error handling"] else [])).

End OptimizerChecks.

(* ------------------------------------------------------------------ *)
(** ** ResearchAgent: pattern extraction, similar apps and the knowledge
       base (src/src/agents/ResearchAgent.ts) *)

Module ResearchExtras.
Import JsString Effects Effects.Notations Research.

(** *** [content.match(/w1|w2|.../gi)] for alternatives of ASCII letters *)

(** Case-insensitive equality of a code unit of the text with a letter of
    the pattern: under the [i] flag a code unit above 127 never matches an
    ASCII letter, and [lower_char] maps no code unit above 127 into ASCII. *)
Definition ci_eq (a b : ascii) : bool := Ascii.eqb (lower_char a) (lower_char b).

Fixpoint ci_prefix (p s : string) : bool :=
  match p, s with
  | EmptyString, _ => true
  | String c p', String d s' => ci_eq c d && ci_prefix p' s'
  | String _ _, EmptyString => false
  end.

(** The alternation at one position: the first alternative that matches. *)
Fixpoint first_alt (alts : list string) (s : string) : option string :=
  match alts with
  | [] => None
  | a :: t => if ci_prefix a s then Some (substring 0 (String.length a) s) else first_alt t s
  end.

(** All matches from left to right; after a match the scan resumes behind
    it.  [fuel] is the length of the text. *)
Fixpoint match_all_fuel (fuel : nat) (alts : list string) (s : string) : list string :=
  match fuel with
  | O => []
  | S f =>
      match s with
      | EmptyString => []
      | String _ s' =>
          match first_alt alts s with
          | Some m => m :: match_all_fuel f alts (substring (String.length m) (String.length s) s)
          | None => match_all_fuel f alts s'
          end
      end
  end.

Definition match_all (alts : list string) (s : string) : list string :=
  match_all_fuel (String.length s) alts s.

(** [[...new Set(xs)]]: first occurrences, in order. *)
Fixpoint set_add_all (seen : list string) (l : list string) : list string :=
  match l with
  | [] => []
  | x :: t => if Optimizer.mem x seen then set_add_all seen t else x :: set_add_all (x :: seen) t
  end.

Definition set_values (l : list string) : list string := set_add_all [] l.

Definition extract_patterns (patterns : list (list string)) (content0 : string) : list string :=
  firstn 5 (set_values (flat_map (fun alts => map toLowerCase (match_all alts content0))
                                 patterns)).

Definition codePatternsRx : list (list string) :=
  [["useState"; "useEffect"; "useContext"; "useReducer"];
   ["component"; "hook"; "function"; "class"];
   ["props"; "state"; "context"; "reducer"];
   ["async"; "await"; "promise"; "fetch"]].

Definition uiPatternsRx : list (list string) :=
  [["responsive"; "mobile"; "desktop"; "tablet"];
   ["layout"; "grid"; "flexbox"; "css"];
   ["modal"; "dialog"; "popup"; "overlay"];
   ["navigation"; "menu"; "sidebar"; "header"];
   ["button"; "input"; "form"; "card"]].

Definition extractCodePatterns (content0 : string) : list string :=
  extract_patterns codePatternsRx content0.

Definition extractUIPatterns (content0 : string) : list string :=
  extract_patterns uiPatternsRx content0.

(** *** [getSimilarApps] *)

(** The fields of the parsed similarity analysis the code reads. *)
Record SimilarAnalysis := {
  sa_similarity : option Q;
  sa_learnings : option (list string);
  sa_techStack : option (list string);
  sa_features : option (list string) }.

(** The agent's collaborators, with the LLM's answer to the similarity
    prompt (a template over the description and the result) and
    [JSON.parse] at the analysis's shape. *)
Record SimilarEnv := {
  base : Env;
  llm_similar : string -> ResearchResult -> outcome string;
  parse_similar : string -> outcome SimilarAnalysis }.

Definition similar_queries (d : string) : list string :=
  [dq ++ d ++ dq ++ " similar apps"; dq ++ d ++ dq ++ " alternatives";
   "apps like " ++ dq ++ d ++ dq; dq ++ d ++ dq ++ " competitors"].

(** [filter((r, i, self) => i === self.findIndex(x => x.url === r.url))]:
    the first result of each URL. *)
Fixpoint uniq_by_url (seen : list string) (l : list ResearchResult) : list ResearchResult :=
  match l with
  | [] => []
  | r :: t => if Optimizer.mem (url r) seen then uniq_by_url seen t
              else r :: uniq_by_url (url r :: seen) t
  end.

(** [Promise.all]: rejects when one of the promises rejects. *)
Fixpoint all_ok {A} (l : list (outcome A)) : outcome (list A) :=
  match l with
  | [] => Ok []
  | o :: t => x <- o ;; xs <- all_ok t ;; Ok (x :: xs)
  end.

Section Similar.
Variable senv : SimilarEnv.

Definition enhance_similar (d : string) (r : ResearchResult) : outcome ResearchResult :=
  response <- llm_similar senv d r ;;
  Ok (match delimited_match "{" "}" response with
      | Some j =>
          match parse_similar senv j with
          | Ok a =>
              {| url := url r; title := title r; content := content r;
                 relevance := match sa_similarity a with
                              | Some q => if Qeq_bool q 0 then relevance r else q
                              | None => relevance r
                              end;
                 insights := Planner.or_list (sa_learnings a) (insights r);
                 codePatterns := Planner.or_list (sa_techStack a) (codePatterns r);
                 uiPatterns := Planner.or_list (sa_features a) (uiPatterns r) |}
          | Throw _ => r
          end
      | None => r
      end).

Fixpoint search_all (queries : list string) (acc : list ResearchResult)
  : outcome (list ResearchResult) :=
  match queries with
  | [] => Ok acc
  | q :: t => results <- searchWeb (base senv) [q] ;; search_all t (acc ++ results)
  end.

Definition getSimilarApps (appDescription : string) : outcome (list ResearchResult) :=
  try_catch
    (allResults <- search_all (similar_queries appDescription) [] ;;
     let sortedResults := sort_by_relevance (uniq_by_url [] allResults) in
     all_ok (map (enhance_similar appDescription) (firstn 5 sortedResults)))
    (fun _ => fallbackSearch (base senv) [appDescription]).

End Similar.

(** *** [updateKnowledgeBase] *)

Record KBEntry := { kb_insights : list string; kb_timestamp : string }.

(** knowledge-base.json: absent, readable with a content, or present but
    unreadable. *)
Inductive KBFile := NoFile | Readable (text : string) | Unreadable (err : string).

(** [JSON.parse] of the file: [Ok None] when it parses to something other
    than an array; [JSON.stringify(kb, null, 2)]; [fs.writeFileSync]. *)
Record KBEnv := {
  kb_parse : string -> outcome (option (list KBEntry));
  kb_stringify : list KBEntry -> string;
  kb_write : string -> outcome unit }.

(** [arr.slice(-n)]. *)
Definition slice_last (n : nat) (l : list KBEntry) : list KBEntry := skipn (length l - n) l.

(** The file after [updateKnowledgeBase(insights)] at time [now]
    ([new Date().toISOString()]). *)
Definition updateKnowledgeBase (kenv : KBEnv) (file : KBFile) (insights0 : list string)
    (now : string) : KBFile :=
  let loaded : outcome (list KBEntry) :=
    match file with
    | NoFile => Ok []
    | Unreadable _ => Ok []
    | Readable text =>
        match kb_parse kenv text with
        | Ok (Some kb) => Ok kb
        | Ok None => Throw "knowledgeBase.push is not a function"
        | Throw _ => Ok []
        end
    end in
  match loaded with
  | Ok kb =>
      let kb1 := app kb [{| kb_insights := insights0; kb_timestamp := now |}] in
      let kb2 := if Nat.ltb 100 (length kb1) then slice_last 100 kb1 else kb1 in
      match kb_write kenv (kb_stringify kenv kb2) with
      | Ok _ => Readable (kb_stringify kenv kb2)
      | Throw _ => file
      end
  | Throw _ => file
  end.

(** Non-increasing relevance, the order [sort_by_relevance] produces. *)
Definition desc (a b : ResearchResult) : Prop := (relevance b <= relevance a)%Q.

(** A result with a non-empty title, snippet and URL. *)
Definition valid_result (r : ResearchResult) : Prop :=
  title r <> EmptyString /\ content r <> EmptyString /\ url r <> EmptyString.

End ResearchExtras.

(* ------------------------------------------------------------------ *)
(** ** DeployAgent.deployApp (src/src/agents/DeployAgent.ts) *)

Module DeployRun.
Import JsString Effects Effects.Notations Deploy.

(** The provider side of a deployment: the outcome of the [try] block of
    each [deployTo...] (temporary files, upload and provider response: the
    new deployment's id and its [url] field), the environment variables
    read, and [Date.now()].  The files prepared from the bundle only reach
    the providers, so they enter through these outcomes. *)
Record DeployEnv := {
  vercel_create : outcome (string * option string);
  netlify_create : outcome (string * option string);
  netlify_archive_error : option string;
  railway_token_var : option string;
  railway_create : outcome string;
  aws_access_key_id : option string;
  aws_secret_access_key : option string;
  aws_region : option string;
  aws_publish : string -> outcome unit;
  now_ms : string }.

Section Run.
Variable agent : Agent.
Variable denv : DeployEnv.

(** Only the [try] block's errors are wrapped; the token check is before
    it. *)
Definition deployToVercel : outcome string :=
  _ <- require_token (vercelToken agent) "Vercel token not provided" ;;
  try_catch
    (r <- vercel_create denv ;;
     Ok (Planner.or_str (snd r) ("https://" ++ fst r ++ ".vercel.app")))
    (fun e => Throw ("Vercel deployment failed: " ++ e)).

(** The promise built inside the [try] is returned without [await]: its
    rejection passes the outer [catch]; an archiver error rejects it
    unwrapped. *)
Definition deployToNetlify : outcome string :=
  _ <- require_token (netlifyToken agent) "Netlify token not provided" ;;
  match netlify_archive_error denv with
  | Some e => Throw e
  | None =>
      try_catch
        (r <- netlify_create denv ;;
         Ok (Planner.or_str (snd r) ("https://" ++ fst r ++ ".netlify.app")))
        (fun e => Throw ("Netlify deployment failed: " ++ e))
  end.

Definition deployToRailway : outcome string :=
  _ <- require_token (railway_token_var denv)
         "Railway token not provided. Set RAILWAY_TOKEN environment variable." ;;
  try_catch
    (id <- railway_create denv ;; Ok ("https://" ++ id ++ ".railway.app"))
    (fun e => Throw ("Railway deployment failed: " ++ e)).

Definition aws_credentials_present : bool :=
  match aws_access_key_id denv, aws_secret_access_key denv with
  | Some k, Some s => negb (String.eqb k "") && negb (String.eqb s "")
  | _, _ => false
  end.

Definition deployToAWS : outcome string :=
  let awsRegion := Planner.or_str (aws_region denv) "us-east-1" in
  if negb aws_credentials_present then
    Throw "AWS credentials not provided. Set AWS_ACCESS_KEY_ID and AWS_SECRET_ACCESS_KEY environment variables."
  else
    let bucketName := "voxlor-app-" ++ now_ms denv in
    try_catch
      (_ <- aws_publish denv bucketName ;;
       Ok ("https://" ++ bucketName ++ ".s3-website-" ++ awsRegion ++ ".amazonaws.com"))
      (fun e => Throw ("AWS deployment failed: " ++ e)).

Definition deployDispatch (platform0 : string) : outcome string :=
  if String.eqb platform0 "vercel" then deployToVercel
  else if String.eqb platform0 "netlify" then deployToNetlify
  else if String.eqb platform0 "railway" then deployToRailway
  else if String.eqb platform0 "aws" then deployToAWS
  else Throw ("Unsupported platform: " ++ platform0).

(** [deployApp]: everything after [prepareDeploymentFiles], which cannot
    throw, is inside the [try]. *)
Definition deployApp (code : Optimizer.GeneratedCode) (config : DeploymentConfig)
  : outcome DeploymentResult :=
  Ok (match deployDispatch (platform config) with
      | Ok u => {| dr_success := true; dr_url := Some u; dr_deploymentId := None;
                   dr_logs := ["Successfully deployed to " ++ platform config];
                   dr_errors := [] |}
      | Throw e => {| dr_success := false; dr_url := None; dr_deploymentId := None;
                      dr_logs := []; dr_errors := [e] |}
      end).

End Run.

(** [new DeployAgent()] as the orchestrator builds it: no tokens. *)
Definition orchestratorDeployAgent : Agent := {| vercelToken := None; netlifyToken := None |}.

(** The orchestrator's agents with its own deploy agent. *)
Definition with_deploy_agent (agents : Orchestrator.Agents) (denv : DeployEnv)
  : Orchestrator.Agents :=
  {| Orchestrator.researchApp := Orchestrator.researchApp agents;
     Orchestrator.planApp := Orchestrator.planApp agents;
     Orchestrator.generateCode := Orchestrator.generateCode agents;
     Orchestrator.optimizeCode := Orchestrator.optimizeCode agents;
     Orchestrator.deployApp := deployApp orchestratorDeployAgent denv |}.

End DeployRun.

(* ------------------------------------------------------------------ *)
(** ** Code-unit classes used by the properties of [toLowerCase] *)

Module TextProps.

(** The sharp s, whose upper case is two code units. *)
Definition sharp_s : ascii := ascii_of_nat 223.

(** The code units [toLowerCase] leaves as they are. *)
Definition lower_fixed (c : ascii) : bool := Ascii.eqb (Research.lower_char c) c.

End TextProps.

(* ================================================================== *)
(** * Properties *)

(** ** Facts about the string primitives *)

Module StringFacts.
Import JsString.

Section Chars.
Variable P : ascii -> bool.

Lemma forall_chars_app (s1 s2 : string) :
  forall_chars P (s1 ++ s2) = forall_chars P s1 && forall_chars P s2.
Proof.
  induction s1 as [|c s1 IH]; simpl; [reflexivity|].
  rewrite IH. apply andb_assoc.
Qed.

Lemma forall_chars_app_intro (s1 s2 : string) :
  forall_chars P s1 = true -> forall_chars P s2 = true -> forall_chars P (s1 ++ s2) = true.
Proof. intros H1 H2. rewrite forall_chars_app, H1, H2. reflexivity. Qed.

Lemma forall_chars_substring (s : string) :
  forall n m, forall_chars P s = true -> forall_chars P (substring n m s) = true.
Proof.
  induction s as [|c s IH]; intros [|n] [|m] H; simpl in *; auto.
  apply andb_true_iff in H as [Hc Hs]. rewrite Hc. simpl. auto.
  apply andb_true_iff in H as [_ Hs]. auto.
  apply andb_true_iff in H as [_ Hs]. auto.
Qed.

Lemma forall_chars_expand_repl (before matched after : string) :
  forall_chars P before = true -> forall_chars P matched = true ->
  forall_chars P after = true ->
  forall repl, forall_chars P repl = true ->
  forall_chars P (expand_repl before matched after repl) = true.
Proof.
  intros Hb Hm Ha.
  assert (Hgen : forall n repl, String.length repl <= n -> forall_chars P repl = true ->
            forall_chars P (expand_repl before matched after repl) = true).
  { induction n as [|n IH]; intros repl Hlen Hr.
    - destruct repl; simpl in *; [reflexivity | lia].
    - destruct repl as [|c r]; [reflexivity|].
      simpl in Hr. apply andb_true_iff in Hr as [Hc Hr].
      simpl in Hlen.
      assert (IHr : forall_chars P (expand_repl before matched after r) = true)
        by (apply IH; [lia | exact Hr]).
      cbn [expand_repl]. destruct (Ascii.eqb c "$") eqn:Hd; [|simpl; rewrite Hc; exact IHr].
      destruct r as [|c2 r2]; [simpl; rewrite Hc; reflexivity|].
      simpl in Hr. apply andb_true_iff in Hr as [Hc2 Hr2].
      assert (IHr2 : forall_chars P (expand_repl before matched after r2) = true)
        by (apply IH; [simpl in Hlen; lia | exact Hr2]).
      destruct (Ascii.eqb c2 "$") eqn:E1.
      { apply Ascii.eqb_eq in E1. subst c2. simpl. rewrite Hc2. exact IHr2. }
      destruct (Ascii.eqb c2 "&") eqn:E2; [apply forall_chars_app_intro; assumption|].
      destruct (Ascii.eqb c2 "`") eqn:E3; [apply forall_chars_app_intro; assumption|].
      destruct (Ascii.eqb c2 "'") eqn:E4; [apply forall_chars_app_intro; assumption|].
      simpl. rewrite Hc. exact IHr. }
  intros repl Hr. apply (Hgen (String.length repl)); [lia | exact Hr].
Qed.

Lemma forall_chars_replace_first (s pat repl : string) :
  forall_chars P s = true -> forall_chars P pat = true -> forall_chars P repl = true ->
  forall_chars P (replace_first s pat repl) = true.
Proof.
  intros Hs Hp Hr. unfold replace_first.
  destruct (index_of pat s) as [i|]; [|exact Hs].
  repeat apply forall_chars_app_intro;
    try apply forall_chars_expand_repl;
    try apply forall_chars_substring; assumption.
Qed.

Lemma forall_chars_trim_start (s : string) :
  forall_chars P s = true -> forall_chars P (trim_start s) = true.
Proof.
  induction s as [|c s IH]; simpl; [auto|].
  intros H. destruct (is_ws c); [|exact H].
  apply andb_true_iff in H as [_ H]. auto.
Qed.

Lemma forall_chars_rev_str (s : string) :
  forall_chars P (rev_str s) = forall_chars P s.
Proof.
  induction s as [|c s IH]; simpl; [reflexivity|].
  rewrite forall_chars_app, IH. simpl. rewrite andb_true_r. apply andb_comm.
Qed.

Lemma forall_chars_trim (s : string) :
  forall_chars P s = true -> forall_chars P (trim s) = true.
Proof.
  intros H. unfold trim.
  rewrite forall_chars_rev_str. apply forall_chars_trim_start.
  rewrite forall_chars_rev_str. apply forall_chars_trim_start. exact H.
Qed.

Lemma forall_chars_split_char (sep : ascii) (s : string) :
  forall_chars P s = true -> Forall (fun x => forall_chars P x = true) (split_char sep s).
Proof.
  induction s as [|c s IH]; simpl; intros H; [repeat constructor|].
  apply andb_true_iff in H as [Hc H]. specialize (IH H).
  destruct (Ascii.eqb c sep); [constructor; auto|].
  destruct (split_char sep s) as [|h t]; constructor; simpl; try rewrite Hc; auto.
  - inversion IH; auto.
  - inversion IH; auto.
Qed.

Lemma forall_chars_join (sep : string) (l : list string) :
  forall_chars P sep = true -> Forall (fun x => forall_chars P x = true) l ->
  forall_chars P (join sep l) = true.
Proof.
  intros Hsep Hl. unfold join.
  induction Hl as [|x l Hx Hl IH]; [reflexivity|].
  destruct l as [|y l]; [exact Hx|].
  change (forall_chars P (x ++ sep ++ String.concat sep (y :: l)) = true).
  repeat apply forall_chars_app_intro; assumption.
Qed.

End Chars.


Lemma split_char_pieces (sep : ascii) (s : string) :
  Forall (fun x => forall_chars (not_char sep) x = true) (split_char sep s).
Proof.
  induction s as [|c s IH]; simpl; [repeat constructor|].
  destruct (Ascii.eqb c sep) eqn:E; [constructor; auto|].
  destruct (split_char sep s) as [|h t]; constructor; simpl;
    unfold not_char at 1; rewrite ?E; simpl; try (inversion IH; auto).
Qed.

Lemma split_char_no_sep (sep : ascii) (x : string) :
  forall_chars (not_char sep) x = true -> split_char sep x = [x].
Proof.
  induction x as [|c x IH]; simpl; [reflexivity|].
  intros H. apply andb_true_iff in H as [Hc H]. unfold not_char in Hc.
  apply negb_true_iff in Hc. rewrite Hc, IH by exact H. reflexivity.
Qed.

Lemma split_char_app_sep (sep : ascii) (x rest : string) :
  forall_chars (not_char sep) x = true ->
  split_char sep (x ++ String sep rest) = x :: split_char sep rest.
Proof.
  induction x as [|c x IH]; simpl; intros H.
  - rewrite Ascii.eqb_refl. reflexivity.
  - apply andb_true_iff in H as [Hc H]. unfold not_char in Hc.
    apply negb_true_iff in Hc. rewrite Hc, IH by exact H. reflexivity.
Qed.

(** Splitting a join undoes it when no piece holds the separator. *)
Lemma split_char_join (sep : ascii) (l : list string) :
  l <> [] -> Forall (fun x => forall_chars (not_char sep) x = true) l ->
  split_char sep (join (String sep EmptyString) l) = l.
Proof.
  intros Hne Hl. unfold join.
  induction Hl as [|x l Hx Hl IH]; [congruence|].
  destruct l as [|y l].
  - apply split_char_no_sep. exact Hx.
  - change (split_char sep (x ++ String sep (String.concat (String sep EmptyString) (y :: l)))
            = x :: y :: l).
    rewrite split_char_app_sep by exact Hx.
    rewrite IH by discriminate. reflexivity.
Qed.
End StringFacts.

(** ** Facts about the optimizer *)

Module OptimizerFacts.
Import JsString StringFacts Optimizer.

Lemma Forall_filter_keep {A} (Q : A -> Prop) (f : A -> bool) (l : list A) :
  Forall Q l -> Forall Q (filter f l).
Proof.
  induction 1 as [|x l Hx Hl IH]; simpl; [constructor|].
  destruct (f x); [constructor|]; assumption.
Qed.

Section Chars.
Variable P : ascii -> bool.

Lemma forall_chars_skip_ws (s : string) :
  forall_chars P s = true -> forall_chars P (skip_ws s) = true.
Proof.
  induction s as [|c s IH]; simpl; [auto|].
  intros H. destruct (is_ws c); [|exact H].
  apply andb_true_iff in H as [_ H]. auto.
Qed.

Lemma forall_chars_span_not_rbrace (s : string) :
  forall_chars P s = true ->
  forall_chars P (fst (span_not_rbrace s)) = true /\
  forall_chars P (snd (span_not_rbrace s)) = true.
Proof.
  induction s as [|c s IH]; simpl; [auto|].
  intros H. destruct (Ascii.eqb c "}"); [simpl; rewrite H; auto|].
  apply andb_true_iff in H as [Hc H].
  destruct (span_not_rbrace s) as [g r]; simpl in *.
  rewrite Hc. simpl. apply IH. exact H.
Qed.

Lemma forall_chars_import_match_at (s g : string) :
  import_match_at s = Some g -> forall_chars P s = true -> forall_chars P g = true.
Proof.
  unfold import_match_at. intros Hm Hs.
  destruct (prefix "import" s); [|discriminate].
  pose proof (forall_chars_skip_ws _ (forall_chars_substring P s 6 (String.length s) Hs)) as Hw.
  destruct (skip_ws (substring 6 (String.length s) s)) as [|c r]; [discriminate|].
  simpl in Hw. apply andb_true_iff in Hw as [_ Hr].
  destruct (Ascii.eqb c "{"); [|discriminate].
  pose proof (forall_chars_span_not_rbrace r Hr) as [Hg _].
  destruct (span_not_rbrace r) as [g0 r2]. simpl in Hg.
  destruct g0 as [|c0 g0]; [discriminate|].
  destruct r2 as [|c2 r3]; [discriminate|].
  destruct (Ascii.eqb c2 "}" && prefix "from" (skip_ws r3)); [|discriminate].
  injection Hm as <-. exact Hg.
Qed.

Lemma forall_chars_import_match (s g : string) :
  import_match s = Some g -> forall_chars P s = true -> forall_chars P g = true.
Proof.
  induction s as [|c s IH]; intros Hm Hs.
  - simpl in Hm. discriminate.
  - simpl in Hm. destruct (import_match_at (String c s)) as [g'|] eqn:E.
    + injection Hm as <-. eapply forall_chars_import_match_at; eauto.
    + simpl in Hs. apply andb_true_iff in Hs as [_ Hs]. auto.
Qed.

Lemma forall_chars_rewrite_import_line (used : list string) (line : string) :
  P "{"%char = true -> P "}"%char = true -> P ","%char = true -> P " "%char = true ->
  forall_chars P line = true -> forall_chars P (rewrite_import_line used line) = true.
Proof.
  intros Hl Hr Hc Hs Hline. unfold rewrite_import_line.
  destruct (import_match line) as [g|] eqn:Hm; [|exact Hline].
  pose proof (forall_chars_import_match _ _ Hm Hline) as Hg.
  assert (Himps : Forall (fun x => forall_chars P x = true) (imports_of g)).
  { unfold imports_of. apply Forall_map.
    eapply Forall_impl; [|apply (forall_chars_split_char P "," g Hg)].
    intros x Hx. apply forall_chars_trim. exact Hx. }
  destruct (Nat.eqb _ 0); [reflexivity|].
  destruct (Nat.ltb _ _); [|exact Hline].
  apply forall_chars_replace_first; [exact Hline| |].
  - simpl. rewrite Hl. simpl. apply forall_chars_app_intro; [exact Hg|]. simpl.
    rewrite Hr. reflexivity.
  - simpl. rewrite Hl. simpl. apply forall_chars_app_intro; [|simpl; rewrite Hr; reflexivity].
    apply forall_chars_join; [simpl; rewrite Hc, Hs; reflexivity|].
    apply Forall_filter_keep. exact Himps.
Qed.

End Chars.

(** [removeUnusedImports] returns the newline-join of the lines it keeps,
    and it keeps no line whose trim is empty. *)
Lemma removeUnusedImports_lines (content : string) :
  removeUnusedImports content = EmptyString \/
  Forall (fun l => trim l <> EmptyString) (split_char nl_char (removeUnusedImports content)).
Proof.
  unfold removeUnusedImports.
  set (lines := split_char nl_char content).
  set (used := used_imports content lines).
  set (kept := filter (fun l => negb (String.eqb (trim l) EmptyString))
                      (map (rewrite_import_line used) lines)).
  destruct kept as [|k ks] eqn:Hk; [left; reflexivity|].
  right. rewrite <- Hk.
  assert (Hpieces : Forall (fun x => forall_chars (not_char nl_char) x = true) kept).
  { unfold kept. apply Forall_filter_keep. apply Forall_map.
    eapply Forall_impl; [|apply split_char_pieces].
    intros x Hx. apply forall_chars_rewrite_import_line; try reflexivity. exact Hx. }
  unfold nl. rewrite split_char_join; [| rewrite Hk; discriminate | exact Hpieces].
  apply Forall_forall. intros l Hin. unfold kept in Hin.
  apply filter_In in Hin as [_ Hb]. apply negb_true_iff in Hb.
  apply String.eqb_neq. exact Hb.
Qed.

(** Claim C10: for every component file name and source text, the output of
    the performance rewrite of that component contains no blank line: it is
    empty, or every line of it (split at LF) has a non-empty trim. *)
Theorem optimizeComponentPerf_no_blank_lines (filename content : string) :
  let out := optimizeComponentPerf filename content in
  out = EmptyString \/ Forall (fun l => trim l <> EmptyString) (split_char nl_char out).
Proof.
  intros out. unfold out, optimizeComponentPerf. apply removeUnusedImports_lines.
Qed.

Lemma fold_left_decreasing (f : Z -> string -> Z) (l : list string) (s : Z) :
  (forall z c, (f z c <= z)%Z) -> (fold_left f l s <= s)%Z.
Proof.
  intros Hf. revert s. induction l as [|c l IH]; intros s; simpl; [lia|].
  specialize (IH (f s c)). specialize (Hf s c). lia.
Qed.

Lemma perf_penalty_le (z : Z) (c : string) : (perf_penalty z c <= z)%Z.
Proof.
  unfold perf_penalty.
  destruct (includes c "console.log"), (includes c "useEffect" && negb (includes c "[]")),
    (negb (includes c "React.memo")); lia.
Qed.

Lemma sec_penalty_le (z : Z) (c : string) : (sec_penalty z c <= z)%Z.
Proof.
  unfold sec_penalty.
  destruct (negb (includes c "cors")), (negb (includes c "validate")),
    (includes c "eval("), (includes c "innerHTML"); lia.
Qed.

Lemma maint_penalty_le (z : Z) (c : string) : (maint_penalty z c <= z)%Z.
Proof.
  unfold maint_penalty.
  destruct (negb (includes c "interface")), (includes c "any"),
    (Nat.ltb 500 (String.length c)); lia.
Qed.

(** Claim C7: for every bundle, the performance, security and
    maintainability scores all lie in the closed interval [0, 100]. *)
Theorem scores_within_bounds (code : GeneratedCode) :
  (0 <= calculatePerformanceScore code <= 100)%Z /\
  (0 <= calculateSecurityScore code <= 100)%Z /\
  (0 <= calculateMaintainabilityScore code <= 100)%Z.
Proof.
  unfold calculatePerformanceScore, calculateSecurityScore, calculateMaintainabilityScore.
  pose proof (fold_left_decreasing perf_penalty (map snd (components code)) 100 perf_penalty_le).
  pose proof (fold_left_decreasing sec_penalty (map snd (routes code)) 100 sec_penalty_le).
  pose proof (fold_left_decreasing maint_penalty (map snd (components code)) 100 maint_penalty_le).
  lia.
Qed.

(** Claim C3 (the code falls short of it): running the performance pass
    on its own output inserts the lazy-loading attribute a second time, so
    the pass is not idempotent on a component holding an image tag. *)
Theorem optimizePerformance_twice_img :
  components (optimizePerformance img_bundle) =
    [("Img.tsx", "<img src=a loading=" ++ dq ++ "lazy" ++ dq ++ " />")] /\
  components (optimizePerformance (optimizePerformance img_bundle)) =
    [("Img.tsx", "<img src=a loading=" ++ dq ++ "lazy" ++ dq ++ " / loading="
                 ++ dq ++ "lazy" ++ dq ++ " />")] /\
  optimizePerformance (optimizePerformance img_bundle) <> optimizePerformance img_bundle.
Proof.
  split; [vm_compute; reflexivity|]. split; [vm_compute; reflexivity|].
  intros H. apply (f_equal components) in H. vm_compute in H. discriminate H.
Qed.

End OptimizerFacts.

(** ** Facts about the research agent *)

Module ResearchFacts.
Import JsString Effects Research.

Lemma first_nonempty_ok (l : list (outcome (list ResearchResult))) :
  exists rs, first_nonempty l = Ok rs.
Proof.
  induction l as [|o l IH]; simpl; [eauto|].
  destruct o as [[|x xs]|m]; eauto.
Qed.

Lemma fallbackSearch_ok (env : Env) (keywords : list string) :
  exists rs, fallbackSearch env keywords = Ok rs.
Proof.
  unfold fallbackSearch.
  match goal with |- context [first_nonempty ?l] =>
    destruct (first_nonempty_ok l) as [rs ->] end.
  simpl. eauto.
Qed.

(** [searchWeb] never rejects: its [try] block falls back on
    [fallbackSearch], which never rejects either. *)
Lemma searchWeb_ok (env : Env) (keywords : list string) :
  exists rs, searchWeb env keywords = Ok rs.
Proof.
  destruct (fallbackSearch_ok env keywords) as [fb Hfb].
  unfold searchWeb, se_try, se_bind, se_get, se_lift, se_push, se_ret.
  destruct (searchDuckDuckGo env keywords []) as [st [[]|e]].
  - destruct st; rewrite ?Hfb; simpl; eauto.
  - rewrite Hfb. simpl. eauto.
Qed.

(** Claim C6: when the primary provider pushes no result and each of the
    three alternative strategies (other engines, the similarity cache, the
    AI knowledge fallback) rejects or finds nothing, [searchWeb] resolves
    with the empty list; it does not reject. *)
Theorem searchWeb_empty_when_all_fail (env : Env) (keywords : list string) :
  fst (searchDuckDuckGo env keywords []) = [] ->
  no_results (searchWithAlternativeEngines env keywords) ->
  no_results (searchWithCachedResults env keywords) ->
  no_results (searchWithAIKnowledge env keywords) ->
  searchWeb env keywords = Ok [].
Proof.
  intros Hddg Halt Hcache Hai.
  assert (Hfb : fallbackSearch env keywords = Ok []).
  { unfold fallbackSearch, first_nonempty.
    destruct (searchWithAlternativeEngines env keywords) as [l1|m1];
      [simpl in Halt; subst l1|];
    destruct (searchWithCachedResults env keywords) as [l2|m2];
      [simpl in Hcache; subst l2| |simpl in Hcache; subst l2|];
    destruct (searchWithAIKnowledge env keywords) as [l3|m3];
      try (simpl in Hai; subst l3); reflexivity. }
  unfold searchWeb, se_try, se_bind, se_get, se_lift, se_push, se_ret.
  destruct (searchDuckDuckGo env keywords []) as [st [[]|e]]; simpl in Hddg; subst st;
    rewrite Hfb; reflexivity.
Qed.

Lemma searchWeb_empty_when_all_fail_witness :
  (fst (searchDuckDuckGo offline_env ["xyzxyz_no_such_topic"] []) = [] /\
   no_results (searchWithAlternativeEngines offline_env ["xyzxyz_no_such_topic"]) /\
   no_results (searchWithCachedResults offline_env ["xyzxyz_no_such_topic"]) /\
   no_results (searchWithAIKnowledge offline_env ["xyzxyz_no_such_topic"])) /\
  searchWeb offline_env ["xyzxyz_no_such_topic"] = Ok [].
Proof.
  split; [repeat split; vm_compute; reflexivity|].
  apply searchWeb_empty_when_all_fail; vm_compute; reflexivity.
Defined.

(** Claim C1 (the code falls short of it): when the LLM client rejects the
    keyword request, [researchApp] rejects with the same error instead of
    resolving with a summary: the call in [extractKeywords] is outside its
    [try]. *)
Theorem researchApp_rejects_when_llm_rejects (env : Env) (prompt : string)
    (plan : option string) (m : string) :
  llm_generate env (KeywordReq prompt plan) = Throw m ->
  researchApp env prompt plan = Throw m.
Proof.
  intros H. unfold researchApp, extractKeywords, bind. rewrite H. reflexivity.
Qed.

Lemma researchApp_rejects_when_llm_rejects_witness :
  llm_generate offline_env (KeywordReq "todo list app" None) = Throw "model failed to load" /\
  researchApp offline_env "todo list app" None = Throw "model failed to load".
Proof.
  split; [reflexivity|].
  apply researchApp_rejects_when_llm_rejects. reflexivity.
Defined.

(** When the LLM client never rejects, [researchApp] resolves: the
    client's rejection is the only way it can fail. *)
Lemma researchApp_ok_when_llm_ok (env : Env) (prompt : string) (plan : option string) :
  (forall r, exists t, llm_generate env r = Ok t) ->
  exists s, researchApp env prompt plan = Ok s.
Proof.
  intros Hllm. unfold researchApp, extractKeywords.
  destruct (Hllm (KeywordReq prompt plan)) as [t1 Ht1]. rewrite Ht1. simpl.
  match goal with |- exists s, bind ?m _ = _ => assert (Hk : exists k, m = Ok k) end.
  { destruct (delimited_match "[" "]" t1) as [j|]; [|eauto].
    destruct (parse_keywords env j); simpl; eauto. }
  destruct Hk as [k ->]. simpl.
  destruct (searchWeb_ok env k) as [rs ->]. simpl.
  unfold analyzeResults.
  destruct (Hllm (AnalysisReq rs prompt)) as [t2 ->]. simpl.
  destruct (delimited_match "{" "}" t2); [|eauto].
  destruct (parse_summary env s); simpl; eauto.
Qed.

(** Whenever [calculateRelevance] resolves, its value lies in [0, 1]. *)
Lemma calculateRelevance_bounds (env : Env) (content0 : string) (keywords : list string) (q : Q) :
  calculateRelevance env content0 keywords = Ok q -> (0 <= q <= 1)%Q.
Proof.
  unfold calculateRelevance.
  set (f := fun (acc : outcome Q) (keyword : string) =>
              bind acc (fun score =>
              bind (regex_count env (toLowerCase keyword) (toLowerCase content0)) (fun matches =>
              Ok (score + inject_Z (Z.of_nat matches) * (1 # 10))%Q))).
  assert (Hinv : forall l acc, (forall s, acc = Ok s -> 0 <= s)%Q ->
                 forall s, fold_left f l acc = Ok s -> (0 <= s)%Q).
  { induction l as [|k l IH]; intros acc Hacc s Hs; simpl in Hs; [auto|].
    apply (IH (f acc k)); [|exact Hs].
    intros s' Hs'. unfold f, bind in Hs'.
    destruct acc as [s0|e]; [|discriminate].
    destruct (regex_count env (toLowerCase k) (toLowerCase content0)) as [n|e]; [|discriminate].
    injection Hs' as <-.
    assert (0 <= s0)%Q by (apply Hacc; reflexivity).
    assert (0 <= inject_Z (Z.of_nat n))%Q by (unfold Qle; simpl; lia).
    lra. }
  intros H. fold f in H.
  destruct (fold_left f keywords (Ok 0%Q)) as [score|e] eqn:E; [|discriminate].
  simpl in H. injection H as <-.
  assert (0 <= score)%Q by (apply (Hinv keywords (Ok 0%Q)); [intros s Hs; injection Hs as <-; lra | exact E]).
  split.
  - apply Q.min_glb; lra.
  - apply Q.le_min_r.
Qed.

(** Claim C8 (the code falls short of it): each keyword is compiled as a
    regular expression without escaping, so the keyword "c++" makes
    [calculateRelevance] throw a [SyntaxError], and the keyword "."
    counts every code unit of the content rather than the occurrences of a
    dot. *)
Theorem calculateRelevance_keyword_as_pattern :
  calculateRelevance offline_env "Learn C++ fast" ["c++"] =
    Throw "Invalid regular expression: /c++/g: Nothing to repeat" /\
  calculateRelevance offline_env "ab" ["."] = Ok (2 # 10)%Q.
Proof. split; vm_compute; reflexivity. Qed.

End ResearchFacts.

(** ** Facts about the planner *)

Module PlannerFacts.
Import JsString Effects Planner.

(** When [getModelClient] or the refinement request rejects, [refinePlan]
    resolves with the plan it was given. *)
Lemma refinePlan_keeps_plan_on_client_failure (env : Env) (plan : AppPlan)
    (feedback m : string) :
  getModelClient env = Throw m \/ generateText env (RefinementPrompt plan feedback) = Throw m ->
  refinePlan env plan feedback = Ok plan.
Proof.
  unfold refinePlan, try_catch, bind.
  intros [H|H]; [rewrite H; reflexivity|].
  destruct (getModelClient env) as [[]|]; [rewrite H|]; reflexivity.
Qed.

(** When the model answers the refinement request with a text that holds
    no JSON object, [refinePlan] resolves with the generic fallback plan
    named after the old plan's name: [parsePlan] catches the parse failure
    itself, so the [catch] that keeps the old plan is never reached. *)
Lemma refinePlan_no_json (env : Env) (plan : AppPlan) (feedback text : string) :
  getModelClient env = Ok tt ->
  generateText env (RefinementPrompt plan feedback) = Ok text ->
  Research.delimited_match "{" "}" text = None ->
  refinePlan env plan feedback = Ok (createFallbackPlan (name plan)).
Proof.
  intros Hc Hg Hm. unfold refinePlan, try_catch, bind. rewrite Hc, Hg.
  unfold parsePlan. rewrite Hm. reflexivity.
Qed.

(** Claim C5 (the code falls short of it): a refinement answer in prose
    makes [refinePlan] discard the input plan and resolve with the generic
    fallback plan. *)
Theorem refinePlan_discards_plan_on_prose :
  refinePlan prose_env todo_plan "Use Postgres instead" = Ok (createFallbackPlan "Todo Tracker") /\
  name (createFallbackPlan "Todo Tracker") = "Todo Tracker App" /\
  refinePlan prose_env todo_plan "Use Postgres instead" <> Ok todo_plan.
Proof.
  split; [|split].
  - apply refinePlan_no_json with (text := "Sure! I have updated the plan as requested.");
      vm_compute; reflexivity.
  - vm_compute. reflexivity.
  - vm_compute. discriminate.
Qed.

End PlannerFacts.

(** ** Facts about the deploy agent *)

Module DeployFacts.
Import JsString Effects Deploy.

(** Claim C9: on [aws], [checkDeploymentStatus] resolves [ready] with the
    fixed us-east-1 website URL of the id, whatever the providers answer;
    on every platform it resolves, and a rejection of the provider check
    becomes an [error] result with one explanatory log line. *)
Theorem checkDeploymentStatus_aws_ready_and_total (agent : Agent) (env : Env) (id : string) :
  checkDeploymentStatus agent env id "aws" =
    Ok {| status := Ready;
          s_url := Some ("https://" ++ id ++ ".s3-website-us-east-1.amazonaws.com");
          s_logs := ["AWS S3 deployment completed successfully"] |} /\
  forall platform0,
    (exists r, checkDeploymentStatus agent env id platform0 = Ok r) /\
    (forall m, statusDispatch agent env id platform0 = Throw m ->
       checkDeploymentStatus agent env id platform0 =
         Ok {| status := Error; s_url := None; s_logs := ["Status check failed: " ++ m] |}).
Proof.
  split; [reflexivity|].
  intros platform0. unfold checkDeploymentStatus, try_catch. split.
  - destruct (statusDispatch agent env id platform0); eauto.
  - intros m ->. reflexivity.
Qed.

Lemma checkDeploymentStatus_aws_ready_and_total_witness :
  statusDispatch full_agent single_env "dpl_9" "heroku" = Throw "Unsupported platform: heroku" /\
  checkDeploymentStatus full_agent single_env "dpl_9" "heroku" =
    Ok {| status := Error; s_url := None;
          s_logs := ["Status check failed: Unsupported platform: heroku"] |}.
Proof.
  split; [reflexivity|].
  apply (proj2 (proj2 (checkDeploymentStatus_aws_ready_and_total full_agent single_env "dpl_9")
                      "heroku")).
  reflexivity.
Defined.

(** Claim C4 is refuted: with every provider listing a single deployment,
    the aws rollback still resolves [true], and the vercel rollback
    resolves [false] instead of rejecting; neither produces a record. *)
Lemma rollbackDeployment_counterexample :
  rollbackDeployment full_agent single_env "my-bucket" "aws" = Ok true /\
  rollbackDeployment full_agent single_env "dpl_1" "vercel" = Ok false.
Proof. split; reflexivity. Qed.

Lemma previous_or_fail_ok (deps : list string) (prev : string) :
  previous_or_fail deps = Ok prev <-> nth_error deps 1 = Some prev.
Proof.
  destruct deps as [|a [|b t]]; simpl; split; intros H; try discriminate;
    injection H as <-; reflexivity.
Qed.

Lemma catch_false_true (m : outcome bool) :
  try_catch m (fun _ => Ok false) = Ok true <-> m = Ok true.
Proof. destruct m as [[]|e]; simpl; split; intros H; congruence. Qed.

Ltac bind_cases :=
  repeat match goal with
  | H : bind ?m _ = _ |- _ => destruct m eqn:?; simpl in H; [|discriminate H]
  end.

(** Claim C4, amended: [rollbackDeployment] always resolves with a
    boolean.  On aws it resolves [true] unconditionally.  On vercel,
    netlify and railway it resolves [true] exactly when the token is
    present, each API call succeeds and the listing holds a second
    deployment, which is the one promoted, restored or rolled back to;
    otherwise it resolves [false], as it does on any other platform. *)
Theorem rollbackDeployment_behaviour (agent : Agent) (env : Env) (id : string) :
  (forall platform0, exists b, rollbackDeployment agent env id platform0 = Ok b) /\
  rollbackDeployment agent env id "aws" = Ok true /\
  (rollbackDeployment agent env id "vercel" = Ok true <->
     exists d deps prev,
       require_token (vercelToken agent) "Vercel token not provided" = Ok tt /\
       vercel_deployment env id = Ok d /\ vercel_list env (projectId d) = Ok deps /\
       nth_error deps 1 = Some prev /\ vercel_promote env prev = Ok tt) /\
  (rollbackDeployment agent env id "netlify" = Ok true <->
     exists deps prev,
       require_token (netlifyToken agent) "Netlify token not provided" = Ok tt /\
       netlify_deploys env id = Ok deps /\
       nth_error deps 1 = Some prev /\ netlify_restore env prev = Ok tt) /\
  (rollbackDeployment agent env id "railway" = Ok true <->
     exists deps prev,
       require_token (railway_token env) "Railway token not provided" = Ok tt /\
       railway_deployments env = Ok deps /\
       nth_error deps 1 = Some prev /\ railway_rollback env prev = Ok tt) /\
  (forall platform0, platform0 <> "vercel" -> platform0 <> "netlify" ->
     platform0 <> "railway" -> platform0 <> "aws" ->
     rollbackDeployment agent env id platform0 = Ok false).
Proof.
  split; [|split; [reflexivity|split; [|split; [|split]]]].
  - intros p. unfold rollbackDeployment, try_catch.
    destruct (rollbackDispatch agent env id p); eauto.
  - unfold rollbackDeployment. rewrite catch_false_true.
    change (rollbackDispatch agent env id "vercel") with (rollbackVercel agent env id).
    unfold rollbackVercel. split.
    + intros H. bind_cases.
      repeat match goal with x : unit |- _ => destruct x end. do 3 eexists.
      repeat split; first [eassumption | apply previous_or_fail_ok; eassumption].
    + intros (d & deps & prev & H1 & H2 & H3 & H4 & H5).
      apply previous_or_fail_ok in H4. rewrite H1, H2. simpl. rewrite H3. simpl.
      rewrite H4. simpl. rewrite H5. reflexivity.
  - unfold rollbackDeployment. rewrite catch_false_true.
    change (rollbackDispatch agent env id "netlify") with (rollbackNetlify agent env id).
    unfold rollbackNetlify. split.
    + intros H. bind_cases.
      repeat match goal with x : unit |- _ => destruct x end. do 2 eexists.
      repeat split; first [eassumption | apply previous_or_fail_ok; eassumption].
    + intros (deps & prev & H1 & H2 & H4 & H5).
      apply previous_or_fail_ok in H4. rewrite H1. simpl. rewrite H2. simpl.
      rewrite H4. simpl. rewrite H5. reflexivity.
  - unfold rollbackDeployment. rewrite catch_false_true.
    change (rollbackDispatch agent env id "railway") with (rollbackRailway env id).
    unfold rollbackRailway. split.
    + intros H. bind_cases.
      repeat match goal with x : unit |- _ => destruct x end. do 2 eexists.
      repeat split; first [eassumption | apply previous_or_fail_ok; eassumption].
    + intros (deps & prev & H1 & H2 & H4 & H5).
      apply previous_or_fail_ok in H4. rewrite H1. simpl. rewrite H2. simpl.
      rewrite H4. simpl. rewrite H5. reflexivity.
  - intros p H1 H2 H3 H4. unfold rollbackDeployment, rollbackDispatch.
    apply String.eqb_neq in H1, H2, H3, H4. rewrite H1, H2, H3, H4. reflexivity.
Qed.

Lemma rollbackDeployment_behaviour_witness :
  rollbackDeployment full_agent single_env "dpl_1" "heroku" = Ok false.
Proof.
  apply (proj2 (proj2 (proj2 (proj2 (proj2 (rollbackDeployment_behaviour full_agent single_env "dpl_1")))))
    "heroku"); discriminate.
Defined.

End DeployFacts.

(** ** Facts about the orchestrator *)

Module OrchestratorFacts.
Import JsString Effects Orchestrator.

(** Claim C2: when every stage before deployment resolves and the deploy
    call resolves with an unsuccessful result, [generateApp] records the
    run-level error "Deployment failed", leaves [deploymentUrl] absent and
    still reports [success = true]. *)
Theorem generateApp_deploy_failure (agents : Agents) (now : string)
    (request : AppGenerationRequest) (res : Research.ResearchSummary)
    (plan : Planner.AppPlan) (c : Optimizer.GeneratedCode) (opt : OptimizationResult)
    (d : Deploy.DeploymentResult) :
  researchApp agents (prompt request) = Ok res ->
  planApp agents request res = Ok plan ->
  generateCode agents plan request = Ok c ->
  optimizeCode agents c = Ok opt ->
  deployApp agents (optimizedCode opt)
    {| Deploy.platform := "vercel"; Deploy.environment := "production" |} = Ok d ->
  Deploy.dr_success d = false ->
  success (generateApp agents now request) = true /\
  deploymentUrl (generateApp agents now request) = None /\
  In "Deployment failed" (errors (generateApp agents now request)).
Proof.
  intros H1 H2 H3 H4 H5 H6. unfold generateApp.
  rewrite H1, H2, H3, H4, H5, H6. simpl. auto.
Qed.

Lemma generateApp_deploy_failure_witness :
  success (generateApp failing_deploy_agents "1760000000000" todo_request) = true /\
  deploymentUrl (generateApp failing_deploy_agents "1760000000000" todo_request) = None /\
  In "Deployment failed" (errors (generateApp failing_deploy_agents "1760000000000" todo_request)).
Proof.
  eapply (generateApp_deploy_failure failing_deploy_agents "1760000000000" todo_request);
    reflexivity.
Defined.

End OrchestratorFacts.

Module SubstringFacts.
Import JsString StringFacts.

Lemma append_assoc (a b c : string) : a ++ (b ++ c) = (a ++ b) ++ c.
Proof. induction a as [|x a IH]; simpl; [reflexivity|]. rewrite IH. reflexivity. Qed.

Lemma append_empty_r (a : string) : a ++ EmptyString = a.
Proof. induction a as [|x a IH]; simpl; [reflexivity|]. rewrite IH. reflexivity. Qed.

Lemma prefix_iff (p s : string) : prefix p s = true <-> exists b, s = p ++ b.
Proof.
  revert s. induction p as [|c p IH]; intros s.
  - split; [intros _; exists s; reflexivity | intros _; destruct s; reflexivity].
  - destruct s as [|d s]; simpl.
    + split; [discriminate | intros [b Hb]; discriminate].
    + destruct (ascii_dec c d) as [->|Hne].
      * rewrite IH. split; intros [b Hb]; exists b; [rewrite Hb | injection Hb]; auto.
      * split; [discriminate | intros [b Hb]; injection Hb; intros; congruence].
Qed.

Lemma includes_nil (p : string) : includes EmptyString p = prefix p EmptyString || false.
Proof. reflexivity. Qed.

Lemma includes_cons (c : ascii) (s p : string) :
  includes (String c s) p = prefix p (String c s) || includes s p.
Proof. reflexivity. Qed.

Lemma includes_iff (s p : string) : includes s p = true <-> exists a b, s = a ++ p ++ b.
Proof.
  split.
  - induction s as [|c s IH]; [rewrite includes_nil | rewrite includes_cons]; intros H.
    + apply orb_true_iff in H as [H|H]; [|discriminate].
      apply prefix_iff in H as [b Hb]. exists EmptyString, b. exact Hb.
    + apply orb_true_iff in H as [H|H].
      * apply prefix_iff in H as [b Hb]. exists EmptyString, b. exact Hb.
      * destruct (IH H) as (a & b & ->). exists (String c a), b. reflexivity.
  - intros (a & b & ->). induction a as [|c a IH].
    + simpl append at 1. destruct (p ++ b) as [|d r] eqn:E;
        [rewrite includes_nil | rewrite includes_cons];
        apply orb_true_iff; left; apply prefix_iff; rewrite <- E; eauto.
    + simpl append. rewrite includes_cons, IH. apply orb_true_r.
Qed.

Lemma includes_trans (s x y : string) :
  includes s x = true -> includes x y = true -> includes s y = true.
Proof.
  rewrite !includes_iff. intros (a & b & ->) (c & d & ->).
  exists (a ++ c), (d ++ b). rewrite <- !append_assoc. reflexivity.
Qed.

Lemma includes_app_l (a b p : string) : includes a p = true -> includes (a ++ b) p = true.
Proof.
  rewrite !includes_iff. intros (x & y & ->). exists x, (y ++ b).
  rewrite <- !append_assoc. reflexivity.
Qed.

Lemma includes_app_r (a b p : string) : includes b p = true -> includes (a ++ b) p = true.
Proof.
  rewrite !includes_iff. intros (x & y & ->). exists (a ++ x), y.
  rewrite <- !append_assoc. reflexivity.
Qed.

Lemma includes_refl (s : string) : includes s s = true.
Proof. apply includes_iff. exists EmptyString, EmptyString. rewrite append_empty_r. reflexivity. Qed.

Lemma split_char_includes_gen (sep : ascii) (s : string) :
  (forall h t, split_char sep s = h :: t -> exists b, s = h ++ b) /\
  (forall x, In x (split_char sep s) -> includes s x = true).
Proof.
  induction s as [|c s [IH1 IH2]]; cbn [split_char].
  - split.
    + intros h t H. injection H as <- _. exists EmptyString. reflexivity.
    + intros x [<-|[]]. reflexivity.
  - destruct (Ascii.eqb c sep) eqn:E.
    + split.
      * intros h t H. injection H as <- _. exists (String c s). reflexivity.
      * intros x [<-|Hx]; [destruct s; reflexivity|].
        rewrite includes_cons, (IH2 x Hx). apply orb_true_r.
    + destruct (split_char sep s) as [|h0 t0] eqn:Es.
      * split.
        -- intros h t H. injection H as <- _. exists s. reflexivity.
        -- intros x [<-|[]]. apply includes_iff. exists EmptyString, s. reflexivity.
      * split.
        -- intros h t H. injection H as <- _. destruct (IH1 h0 t0 eq_refl) as [b ->].
           exists b. reflexivity.
        -- intros x [<-|Hx].
           ++ destruct (IH1 h0 t0 eq_refl) as [b ->]. apply includes_iff.
              exists EmptyString, b. reflexivity.
           ++ rewrite includes_cons, (IH2 x (or_intror Hx)). apply orb_true_r.
Qed.

Lemma split_char_includes (sep : ascii) (s x : string) :
  In x (split_char sep s) -> includes s x = true.
Proof. apply (proj2 (split_char_includes_gen sep s)). Qed.

Lemma split_char_nonempty (sep : ascii) (s : string) : split_char sep s <> [].
Proof.
  destruct s as [|c s]; simpl; [discriminate|].
  destruct (Ascii.eqb c sep); [discriminate|]. destruct (split_char sep s); discriminate.
Qed.

Lemma rev_str_app (a b : string) : rev_str (a ++ b) = rev_str b ++ rev_str a.
Proof.
  induction a as [|c a IH]; simpl.
  - rewrite append_empty_r. reflexivity.
  - rewrite IH, append_assoc. reflexivity.
Qed.

Lemma rev_str_involutive (s : string) : rev_str (rev_str s) = s.
Proof.
  induction s as [|c s IH]; simpl; [reflexivity|].
  rewrite rev_str_app, IH. reflexivity.
Qed.

Lemma trim_start_suffix (s : string) : exists a, s = a ++ trim_start s.
Proof.
  induction s as [|c s [a Ha]]; simpl; [exists EmptyString; reflexivity|].
  destruct (is_ws c); [exists (String c a); simpl; f_equal; exact Ha|].
  exists EmptyString. reflexivity.
Qed.

Lemma trim_includes (s : string) : includes s (trim s) = true.
Proof.
  apply includes_iff. unfold trim.
  destruct (trim_start_suffix s) as [a Ha].
  set (t := trim_start s) in *.
  destruct (trim_start_suffix (rev_str t)) as [a' Ha'].
  exists a, (rev_str a').
  assert (Ht : t = rev_str (trim_start (rev_str t)) ++ rev_str a').
  { rewrite <- rev_str_app, <- Ha', rev_str_involutive. reflexivity. }
  rewrite Ha at 1. rewrite Ht at 1. reflexivity.
Qed.

Lemma skip_ws_suffix (s : string) : exists a, s = a ++ Optimizer.skip_ws s.
Proof.
  induction s as [|c s [a Ha]]; simpl; [exists EmptyString; reflexivity|].
  destruct (is_ws c); [exists (String c a); simpl; f_equal; exact Ha|].
  exists EmptyString. reflexivity.
Qed.

Lemma span_not_rbrace_app (s g r : string) :
  Optimizer.span_not_rbrace s = (g, r) -> s = g ++ r.
Proof.
  revert g r. induction s as [|c s IH]; simpl; intros g r H.
  - injection H as <- <-. reflexivity.
  - destruct (Ascii.eqb c "}"); [injection H as <- <-; reflexivity|].
    destruct (Optimizer.span_not_rbrace s) as [g' r'] eqn:E.
    injection H as <- <-. simpl. f_equal. apply IH. reflexivity.
Qed.

Lemma substring_all (s : string) (m : nat) : String.length s <= m -> substring 0 m s = s.
Proof.
  revert m. induction s as [|c s IH]; intros [|m] H; simpl in *; try reflexivity; [lia|].
  f_equal. apply IH. lia.
Qed.

Lemma substring_after_prefix (p b : string) (m : nat) :
  String.length (p ++ b) <= m -> substring (String.length p) m (p ++ b) = b.
Proof.
  revert m. induction p as [|c p IH]; intros m H; simpl in *.
  - apply substring_all. exact H.
  - destruct m as [|m]; [lia|]. apply IH. lia.
Qed.

Lemma import_match_at_includes (s g : string) :
  Optimizer.import_match_at s = Some g -> includes s g = true.
Proof.
  unfold Optimizer.import_match_at. destruct (prefix "import" s) eqn:Hp; [|discriminate].
  apply prefix_iff in Hp as [b ->].
  change 6 with (String.length "import").
  rewrite (substring_after_prefix "import" b (String.length ("import" ++ b))) by lia.
  destruct (skip_ws_suffix b) as [a Ha].
  destruct (Optimizer.skip_ws b) as [|c r] eqn:Hs; [discriminate|].
  destruct (Ascii.eqb c "{"); [|discriminate].
  destruct (Optimizer.span_not_rbrace r) as [g' r2] eqn:Hsp.
  apply span_not_rbrace_app in Hsp.
  intros H. assert (g' = g) as <-.
  { destruct g' as [|x g'']; [discriminate|].
    destruct r2 as [|c2 r3]; [discriminate|].
    destruct (Ascii.eqb c2 "}" && prefix "from" (Optimizer.skip_ws r3)); [|discriminate].
    injection H as <-. reflexivity. }
  apply includes_iff. exists ("import" ++ a ++ String c EmptyString), r2.
  rewrite Ha, <- Hsp. rewrite <- !append_assoc. reflexivity.
Qed.

Lemma import_match_includes (s g : string) :
  Optimizer.import_match s = Some g -> includes s g = true.
Proof.
  induction s as [|c s IH]; cbn [Optimizer.import_match]; intros H.
  - destruct (Optimizer.import_match_at "") eqn:E; [|discriminate].
    injection H as <-. apply import_match_at_includes. exact E.
  - destruct (Optimizer.import_match_at (String c s)) eqn:E.
    + injection H as <-. apply import_match_at_includes. exact E.
    + specialize (IH H). rewrite includes_cons, IH. apply orb_true_r.
Qed.

Lemma imports_of_includes (g imp : string) :
  In imp (Optimizer.imports_of g) -> includes g imp = true.
Proof.
  unfold Optimizer.imports_of. intros H. apply in_map_iff in H as (x & <- & Hx).
  eapply includes_trans; [apply (split_char_includes _ _ _ Hx) | apply trim_includes].
Qed.

(** Every name listed in an import line of [content] occurs in [content]. *)
Lemma import_name_in_content (content line g imp : string) :
  In line (split_char nl_char content) -> Optimizer.import_match line = Some g ->
  In imp (Optimizer.imports_of g) -> includes content imp = true.
Proof.
  intros Hl Hg Hi.
  eapply includes_trans; [apply (split_char_includes _ _ _ Hl)|].
  eapply includes_trans; [apply (import_match_includes _ _ Hg)|].
  apply imports_of_includes. exact Hi.
Qed.

Lemma index_of_none (p s : string) : index_of p s = None <-> includes s p = false.
Proof.
  induction s as [|c s IH]; cbn [index_of includes].
  - destruct (prefix p ""); simpl; split; congruence.
  - destruct (prefix p (String c s)); simpl; [split; congruence|].
    rewrite <- IH. destruct (index_of p s); simpl; split; congruence.
Qed.

Lemma expand_repl_no_dollar (before matched after repl : string) :
  forall_chars (not_char "$") repl = true -> expand_repl before matched after repl = repl.
Proof.
  induction repl as [|c r IH]; simpl; [reflexivity|].
  intros H. apply andb_true_iff in H as [Hc H]. unfold not_char in Hc.
  apply negb_true_iff in Hc. rewrite Hc, IH by exact H. reflexivity.
Qed.

(** [replace_first] keeps a text that both the subject and the
    replacement hold, when the replacement has no [$]. *)
Lemma replace_first_includes (s pat repl x : string) :
  includes s x = true -> includes repl x = true ->
  forall_chars (not_char "$") repl = true ->
  includes (replace_first s pat repl) x = true.
Proof.
  intros Hs Hr Hd. unfold replace_first.
  destruct (index_of pat s); [|exact Hs].
  rewrite expand_repl_no_dollar by exact Hd.
  apply includes_app_r, includes_app_l. exact Hr.
Qed.

Lemma mem_In (x : string) (l : list string) : In x l -> Optimizer.mem x l = true.
Proof.
  intros H. unfold Optimizer.mem. apply existsb_exists. exists x. split; [exact H|].
  apply String.eqb_refl.
Qed.

Lemma mem_iff (x : string) (l : list string) : Optimizer.mem x l = true <-> In x l.
Proof.
  split; [|apply mem_In]. unfold Optimizer.mem. intros H.
  apply existsb_exists in H as (y & Hy & E). apply String.eqb_eq in E. subst. exact Hy.
Qed.

End SubstringFacts.

Module OptimizerExtraFacts.
Import JsString Optimizer OptimizerChecks SubstringFacts.

Lemma filter_all {A} (f : A -> bool) (l : list A) :
  (forall x, In x l -> f x = true) -> filter f l = l.
Proof.
  induction l as [|x l IH]; simpl; intros H; [reflexivity|].
  rewrite (H x (or_introl eq_refl)), IH by (intros; apply H; right; assumption).
  reflexivity.
Qed.

Lemma imports_of_nonempty (g : string) : imports_of g <> [].
Proof.
  unfold imports_of. destruct (split_char "," g) eqn:E; [|discriminate].
  exfalso. exact (split_char_nonempty _ _ E).
Qed.

Lemma rewrite_import_line_keeps (content line : string) :
  includes content "*" = false -> In line (split_char nl_char content) ->
  rewrite_import_line (used_imports content (split_char nl_char content)) line = line.
Proof.
  intros Hstar Hl. unfold rewrite_import_line.
  destruct (import_match line) as [g|] eqn:Hg; [|reflexivity].
  rewrite filter_all.
  - destruct (imports_of g) as [|i0 t0] eqn:Ei; [exfalso; exact (imports_of_nonempty g Ei)|].
    simpl. rewrite Nat.ltb_irrefl. reflexivity.
  - intros imp Himp. apply mem_In. unfold used_imports. apply in_flat_map.
    exists line. split; [exact Hl|]. rewrite Hg. apply filter_In. split; [exact Himp|].
    rewrite (import_name_in_content content line g imp Hl Hg Himp). simpl.
    destruct (includes imp "*") eqn:E; [|reflexivity].
    rewrite (includes_trans content imp "*") in Hstar; [discriminate| |exact E].
    exact (import_name_in_content content line g imp Hl Hg Himp).
Qed.

Lemma lint_line_messages (content line : string) (n : nat) :
  In line (split_char nl_char content) ->
  Forall (fun e => le_message e = "Remove console.log statements in production code" \/
                   le_message e = "Address TODO/FIXME comments") (lint_line content line n).
Proof.
  intros Hl. unfold lint_line. apply Forall_app. split.
  { destruct (includes line "console.log"); [apply Forall_cons; [simpl; auto | constructor] | constructor]. }
  apply Forall_app. split.
  { destruct (includes line "TODO" || includes line "FIXME");
      [apply Forall_cons; [simpl; auto | constructor] | constructor]. }
  destruct (includes line "import" && includes line "{" && includes line "}"); [|constructor].
  destruct (import_match line) as [g|] eqn:Hg; [|constructor].
  apply Forall_forall. intros e He. apply in_flat_map in He as (imp & Himp & He).
  rewrite (import_name_in_content content line g imp Hl Hg Himp) in He.
  destruct He.
Qed.

Lemma lint_lines_messages (content : string) (lines : list string) (n : nat) :
  (forall l, In l lines -> In l (split_char nl_char content)) ->
  Forall (fun e => le_message e = "Remove console.log statements in production code" \/
                   le_message e = "Address TODO/FIXME comments") (lint_lines content n lines).
Proof.
  revert n. induction lines as [|l t IH]; intros n H; simpl; [constructor|].
  apply Forall_app. split.
  - apply lint_line_messages. apply H. left. reflexivity.
  - apply IH. intros; apply H; right; assumption.
Qed.

Lemma lint_lines_nth (content L : string) (ls : list string) (n i : nat) :
  nth_error ls i = Some L -> incl (lint_line content L (n + i)) (lint_lines content n ls).
Proof.
  revert n i. induction ls as [|l t IH]; intros n [|i] H; simpl in H; try discriminate.
  - injection H as ->. rewrite Nat.add_0_r. simpl. apply incl_appl, incl_refl.
  - simpl. apply incl_appr. replace (n + S i) with (S n + i) by lia. apply IH. exact H.
Qed.

Lemma js_index_of_absent (p s : string) : includes s p = false -> js_index_of p s = (-1)%Z.
Proof. intros H. unfold js_index_of. apply index_of_none in H. rewrite H. reflexivity. Qed.

Lemma js_index_of_prefix (p s : string) : prefix p s = true -> js_index_of p s = 0%Z.
Proof. intros H. unfold js_index_of. destruct s; cbn [index_of]; rewrite H; reflexivity. Qed.

Lemma includes_of_prefix (p s : string) : prefix p s = true -> includes s p = true.
Proof.
  intros H. destruct s; [rewrite includes_nil | rewrite includes_cons]; rewrite H; reflexivity.
Qed.

Lemma generateRealTests_pass (n c : string) : forallb tc_passed (generateRealTests n c) = true.
Proof.
  unfold generateRealTests.
  destruct (includes c "interface" && includes c "Props"), (includes c "useState" || includes c "useReducer"),
    (includes c "useEffect"), (includes c "onClick" || includes c "onChange" || includes c "onSubmit");
    reflexivity.
Qed.

Lemma generateAPIRealTests_pass (n c : string) : forallb tc_passed (generateAPIRealTests n c) = true.
Proof.
  unfold generateAPIRealTests.
  destruct (includes c "GET" || includes c "POST" || includes c "PUT" || includes c "DELETE"),
    (includes c "try" || includes c "catch"), (includes c "validate" || includes c "check");
    reflexivity.
Qed.

Lemma interfaceCode_has_interface (f : string) : includes (interfaceCode f) "interface" = true.
Proof.
  apply includes_iff. exists nl, (" " ++ replace_first f ".tsx" "" ++ "Props {" ++ nl
    ++ "  // Define props here" ++ nl ++ "}" ++ nl ++ nl).
  reflexivity.
Qed.

Lemma maintainComponent_idem (f c : string) :
  maintainComponent f (maintainComponent f c) = maintainComponent f c.
Proof.
  unfold maintainComponent.
  destruct (includes c "props" && negb (includes c "interface")) eqn:E.
  - rewrite (includes_app_l _ c _ (interfaceCode_has_interface f)), andb_false_r. reflexivity.
  - rewrite E. reflexivity.
Qed.

Lemma secureRoute_cors (c : string) : includes (secureRoute c) "cors" = true.
Proof.
  unfold secureRoute.
  set (c1 := if includes c "req.body" && negb (includes c "validate")
             then replace_first c "req.body" "validateInput(req.body)" else c).
  destruct (includes c1 "cors") eqn:E; cbn [negb]; [exact E|].
  apply replace_first_includes; [apply includes_app_l; reflexivity | reflexivity | reflexivity].
Qed.

(** X1: [removeUnusedImports] only drops blank lines when the content holds
    no [*]: every name of an import line occurs in the content, at least in
    that import line itself, so no import is ever found unused. *)
Theorem removeUnusedImports_keeps_imports (content : string) :
  includes content "*" = false ->
  removeUnusedImports content =
  join nl (filter (fun l => negb (String.eqb (trim l) EmptyString)) (split_char nl_char content)).
Proof.
  intros H. unfold removeUnusedImports. f_equal. f_equal.
  rewrite (map_ext_in _ (fun l => l)); [apply map_id|].
  intros l Hl. apply rewrite_import_line_keeps; assumption.
Qed.

Lemma removeUnusedImports_keeps_imports_witness :
  let c := "import { useState, useMemo } from 'react';" ++ nl ++ nl ++ "export default App;" in
  includes c "*" = false /\
  removeUnusedImports c = "import { useState, useMemo } from 'react';" ++ nl ++ "export default App;".
Proof.
  intros c. split; [reflexivity|].
  rewrite (removeUnusedImports_keeps_imports c) by reflexivity. vm_compute. reflexivity.
Defined.

(** X2: [lintFile] never reports an unused import: every error it returns
    is the console.log warning or the TODO/FIXME note. *)
Theorem lintFile_no_unused_import (filename content : string) :
  Forall (fun e => le_message e = "Remove console.log statements in production code" \/
                   le_message e = "Address TODO/FIXME comments")
         (lr_errors (lintFile filename content)).
Proof. apply lint_lines_messages. auto. Qed.

(** X3: the TODO/FIXME note of a line gets column -1 when the line holds
    FIXME but no TODO, and also when it starts with TODO and holds no
    FIXME ([indexOf('TODO') || indexOf('FIXME')] with 0 falsy). *)
Theorem lintFile_todo_column (filename content L : string) (i : nat) :
  nth_error (split_char nl_char content) i = Some L ->
  (includes L "TODO" = false /\ includes L "FIXME" = true) \/
  (prefix "TODO" L = true /\ includes L "FIXME" = false) ->
  In {| le_line := S i; le_column := (-1)%Z; le_message := "Address TODO/FIXME comments";
        le_severity := SevInfo |} (lr_errors (lintFile filename content)).
Proof.
  intros Hn Hc. simpl. apply (lint_lines_nth content L _ 1 i Hn).
  unfold lint_line. apply in_or_app. right. apply in_or_app. left.
  destruct Hc as [[Ht Hf] | [Ht Hf]].
  - rewrite Ht, Hf. simpl. rewrite (js_index_of_absent "TODO" L Ht). left. reflexivity.
  - rewrite (includes_of_prefix _ _ Ht). simpl.
    rewrite (js_index_of_prefix "TODO" L Ht), (js_index_of_absent "FIXME" L Hf). left. reflexivity.
Qed.

Lemma lintFile_todo_column_witness :
  In {| le_line := 2; le_column := (-1)%Z; le_message := "Address TODO/FIXME comments";
        le_severity := SevInfo |}
     (lr_errors (lintFile "App.tsx" ("const a = 1;" ++ nl ++ "// FIXME: tidy"))).
Proof.
  apply (lintFile_todo_column "App.tsx" ("const a = 1;" ++ nl ++ "// FIXME: tidy") "// FIXME: tidy" 1).
  - reflexivity.
  - left. split; reflexivity.
Defined.

(** X4: [calculateCoverage] lies between 60 and 95, and reaches the 80 of
    the low-coverage check exactly when the content mentions tests, or both
    error handling and validation. *)
Theorem calculateCoverage_range (content : string) :
  60 <= calculateCoverage content <= 95 /\
  (80 <= calculateCoverage content <->
   (includes content "test" || includes content "spec") = true \/
   ((includes content "try" || includes content "catch" || includes content "error") = true /\
    (includes content "validate" || includes content "check") = true)).
Proof.
  unfold calculateCoverage.
  destruct (includes content "test" || includes content "spec"),
    (includes content "try" || includes content "catch" || includes content "error"),
    (includes content "validate" || includes content "check"); cbn;
    split; try lia; split; intros H; try lia; intuition discriminate.
Qed.

(** X5: the test issues of [optimizeCode] are one low-coverage line per
    component or route whose coverage is below 80, in order; "Tests failed"
    is never reported, every generated test case being marked as passed. *)
Theorem runTests_issues (code : GeneratedCode) :
  extractTestIssues (runTests code) =
  flat_map (fun '(f, c) =>
    if Nat.ltb (calculateCoverage c) 80
    then ["Low test coverage in " ++ f ++ ": " ++ nat_to_string (calculateCoverage c) ++ "%"]
    else []) (components code ++ routes code).
Proof.
  unfold extractTestIssues, runTests. rewrite !flat_map_app. f_equal.
  - induction (components code) as [|[f c] t IH]; [reflexivity|].
    cbn [map flat_map]. rewrite IH. unfold generateComponentTest.
    cbn [tr_passed tr_coverage tr_file]. rewrite generateRealTests_pass. reflexivity.
  - induction (routes code) as [|[f c] t IH]; [reflexivity|].
    cbn [map flat_map]. rewrite IH. unfold generateAPITest.
    cbn [tr_passed tr_coverage tr_file]. rewrite generateAPIRealTests_pass. reflexivity.
Qed.

(** X6: [optimizeMaintainability] is idempotent: the interface it adds
    stops a second insertion. *)
Theorem optimizeMaintainability_idempotent (code : GeneratedCode) :
  optimizeMaintainability (optimizeMaintainability code) = optimizeMaintainability code.
Proof.
  unfold optimizeMaintainability. simpl. f_equal.
  rewrite map_map. apply map_ext. intros [f c]. rewrite maintainComponent_idem. reflexivity.
Qed.

(** X7: every route of the code [optimizeCode] returns mentions cors. *)
Theorem optimizeCode_routes_cors (code : GeneratedCode) :
  Forall (fun fc => includes (snd fc) "cors" = true)
         (routes (Orchestrator.optimizedCode (optimizeCode code))).
Proof.
  simpl. apply Forall_forall. intros fc Hfc.
  apply in_map_iff in Hfc as ([f c] & <- & _). apply secureRoute_cors.
Qed.

(** X8: [generateRecommendations] is empty exactly when the three scores
    are at least 80. *)
Theorem generateRecommendations_empty (r : Orchestrator.OptimizationResult) :
  generateRecommendations r = EmptyString <->
  (80 <= Orchestrator.performanceScore r /\ 80 <= Orchestrator.securityScore r /\
   80 <= Orchestrator.maintainabilityScore r)%Z.
Proof.
  unfold generateRecommendations.
  destruct (Z.ltb (Orchestrator.performanceScore r) 80) eqn:E1,
    (Z.ltb (Orchestrator.securityScore r) 80) eqn:E2,
    (Z.ltb (Orchestrator.maintainabilityScore r) 80) eqn:E3;
    rewrite ?Z.ltb_lt, ?Z.ltb_ge in *; cbn; split; intros H; try discriminate; try lia;
    reflexivity.
Qed.

End OptimizerExtraFacts.

Module ResearchExtraFacts.
Import JsString Effects Effects.Notations Research ResearchExtras SubstringFacts OptimizerExtraFacts.

Lemma existsb_eqb_iff (x : string) (l : list string) : existsb (String.eqb x) l = true <-> In x l.
Proof. apply (mem_iff x l). Qed.

Lemma dedup_In (l : list string) (x : string) : In x (dedup l) <-> In x l.
Proof.
  induction l as [|y t IH]; simpl; [tauto|].
  destruct (existsb (String.eqb y) (dedup t)) eqn:E.
  - apply existsb_eqb_iff in E. rewrite IH in *. split; [tauto|].
    intros [<-|H]; tauto.
  - simpl. rewrite IH. tauto.
Qed.

Lemma dedup_NoDup (l : list string) : NoDup (dedup l).
Proof.
  induction l as [|y t IH]; simpl; [constructor|].
  destruct (existsb (String.eqb y) (dedup t)) eqn:E; [exact IH|].
  constructor; [|exact IH]. intros H. apply existsb_eqb_iff in H. congruence.
Qed.

Lemma dedup_nonempty (l : list string) : l <> [] -> 1 <= length (dedup l).
Proof.
  intros H. destruct l as [|y t]; [congruence|].
  destruct (dedup (y :: t)) eqn:E; simpl; [|lia].
  exfalso. assert (Hy : In y (dedup (y :: t))) by (apply dedup_In; left; reflexivity).
  rewrite E in Hy. destruct Hy.
Qed.

Lemma same_elements_length (l1 l2 : list string) :
  NoDup l1 -> NoDup l2 -> (forall x, In x l1 <-> In x l2) -> length l1 = length l2.
Proof.
  intros N1 N2 H. apply Nat.le_antisymm; apply NoDup_incl_length; try assumption;
    intros x Hx; apply H; assumption.
Qed.

Lemma inter_In (w1 w2 : list string) (x : string) :
  In x (filter (fun y => existsb (String.eqb y) w2) w1) <-> In x w1 /\ In x w2.
Proof. rewrite filter_In, existsb_eqb_iff. tauto. Qed.

Lemma Q_ratio_bounds (a b : nat) : a <= b -> 1 <= b ->
  (0 <= inject_Z (Z.of_nat a) / inject_Z (Z.of_nat b) <= 1)%Q.
Proof.
  intros Hab Hb. assert (Hpos : (0 < inject_Z (Z.of_nat b))%Q) by (unfold Qlt; simpl; lia).
  split.
  - apply Qle_shift_div_l; [exact Hpos|]. unfold Qle, Qmult; simpl; lia.
  - apply Qle_shift_div_r; [exact Hpos|]. rewrite Qmult_1_l. unfold Qle; simpl; lia.
Qed.

Lemma similarity_parts (q1 q2 : string) :
  let w1 := dedup (split_char " " q1) in
  let w2 := dedup (split_char " " q2) in
  length (filter (fun x => existsb (String.eqb x) w2) w1) <= length (dedup (w1 ++ w2)) /\
  1 <= length (dedup (w1 ++ w2)).
Proof.
  intros w1 w2. split.
  - apply NoDup_incl_length.
    + apply NoDup_filter, dedup_NoDup.
    + intros x Hx. apply inter_In in Hx. apply dedup_In, in_or_app. tauto.
  - apply dedup_nonempty. intros H. apply app_eq_nil in H as [H _].
    assert (1 <= length w1) by (apply dedup_nonempty, split_char_nonempty).
    rewrite H in *. simpl in *. lia.
Qed.

Lemma self_similarity (q : string) : (calculateQuerySimilarity q q == 1)%Q.
Proof.
  unfold calculateQuerySimilarity. set (w := dedup (split_char " " q)).
  rewrite filter_all by (intros x Hx; apply existsb_eqb_iff; exact Hx).
  rewrite (same_elements_length (dedup (w ++ w)) w).
  - unfold Qdiv. apply Qmult_inv_r.
    assert (1 <= length w) by (apply dedup_nonempty, split_char_nonempty).
    unfold Qeq; simpl; lia.
  - apply dedup_NoDup.
  - apply dedup_NoDup.
  - intros x. rewrite dedup_In, in_app_iff. tauto.
Qed.


Lemma Qlt_bool_iff (a b : Q) : Qlt_bool a b = true <-> (a < b)%Q.
Proof.
  unfold Qlt_bool. rewrite negb_true_iff. split.
  - intros H. apply Qnot_le_lt. intros H'. apply Qle_bool_iff in H'. congruence.
  - intros H. destruct (Qle_bool b a) eqn:E; [|reflexivity].
    apply Qle_bool_iff in E. exfalso. apply (Qlt_not_le _ _ H E).
Qed.

Lemma insert_desc_hd (x y : ResearchResult) (l : list ResearchResult) :
  HdRel desc y l -> desc y x -> HdRel desc y (insert_desc x l).
Proof.
  intros H Hyx. destruct l as [|z t]; simpl.
  - constructor. exact Hyx.
  - destruct (Qlt_bool (relevance z) (relevance x)); constructor; [exact Hyx|].
    inversion H. assumption.
Qed.

Lemma insert_desc_sorted (x : ResearchResult) (l : list ResearchResult) :
  Sorted desc l -> Sorted desc (insert_desc x l).
Proof.
  induction l as [|y t IH]; simpl; intros H; [repeat constructor|].
  destruct (Qlt_bool (relevance y) (relevance x)) eqn:E.
  - apply Qlt_bool_iff in E. constructor; [exact H|]. constructor. unfold desc. apply Qlt_le_weak, E.
  - inversion H as [|? ? Ht Hhd]; subst. constructor; [apply IH, Ht|].
    apply insert_desc_hd; [exact Hhd|]. unfold desc. apply Qnot_lt_le.
    intros Hlt. apply Qlt_bool_iff in Hlt. congruence.
Qed.

Lemma sort_by_relevance_sorted (l : list ResearchResult) : Sorted desc (sort_by_relevance l).
Proof.
  unfold sort_by_relevance. assert (H : Sorted desc []) by constructor. revert H.
  generalize (@nil ResearchResult). induction l as [|x t IH]; simpl; intros acc H; [exact H|].
  apply IH, insert_desc_sorted, H.
Qed.

Lemma insert_desc_perm (x : ResearchResult) (l : list ResearchResult) :
  Permutation (insert_desc x l) (x :: l).
Proof.
  induction l as [|y t IH]; simpl; [reflexivity|].
  destruct (Qlt_bool (relevance y) (relevance x)); [reflexivity|].
  rewrite IH. apply perm_swap.
Qed.

Lemma sort_by_relevance_perm (l : list ResearchResult) : Permutation (sort_by_relevance l) l.
Proof.
  unfold sort_by_relevance. rewrite <- (app_nil_l l) at 2. generalize (@nil ResearchResult).
  induction l as [|x t IH]; simpl; intros acc; [rewrite app_nil_r; reflexivity|].
  rewrite IH, insert_desc_perm. simpl. apply Permutation_middle.
Qed.


Lemma bind_ok_inv {A B} (m : outcome A) (k : A -> outcome B) (b : B) :
  bind m k = Ok b -> exists a, m = Ok a /\ k a = Ok b.
Proof. destruct m; simpl; [eauto | discriminate]. Qed.

Lemma se_for_each_grows {A} (P : ResearchResult -> Prop) (l : list A) (f : A -> SE unit)
    (st : list ResearchResult) :
  (forall x st, In x l -> exists ys, fst (f x st) = app st ys /\ length ys <= 1 /\ Forall P ys) ->
  exists ys, fst (se_for_each l f st) = app st ys /\ length ys <= length l /\ Forall P ys.
Proof.
  revert st. induction l as [|x t IH]; intros st Hf; simpl.
  - exists []. rewrite app_nil_r. auto.
  - unfold se_bind. destruct (Hf x st (or_introl eq_refl)) as (ys & Hys & Hl & HP).
    destruct (f x st) as [st1 o] eqn:E. simpl in Hys. subst st1. destruct o as [[]|e].
    + destruct (IH (app st ys)) as (zs & Hzs & Hl2 & HP2); [intros; apply Hf; right; assumption|].
      exists (app ys zs). rewrite Hzs, app_assoc. repeat split; [rewrite length_app; lia|].
      apply Forall_app; auto.
    + exists ys. simpl. repeat split; [lia | exact HP].
Qed.

Lemma to_result_valid (env : Env) (keywords : list string) (r : RawResult) (x : ResearchResult) :
  valid_raw r = true -> to_result env keywords r = Ok x -> valid_result x.
Proof.
  unfold valid_raw, to_result. intros Hv H. apply bind_ok_inv in H as (rel & _ & H).
  injection H as <-. destruct (raw_href r) as [u|] eqn:Eu; [|rewrite andb_false_r in Hv; discriminate].
  apply andb_true_iff in Hv as [Hv Hu]. apply andb_true_iff in Hv as [Ht Hs].
  apply negb_true_iff, String.eqb_neq in Ht, Hs, Hu.
  unfold valid_result. simpl. repeat split; [exact Ht | exact Hs|].
  destruct (prefix "//" u); [discriminate | exact Hu].
Qed.

Lemma collect_grows (env : Env) (keywords : list string) (els : list RawResult) st :
  exists ys, fst (collect env keywords els st) = app st ys /\ length ys <= 5 /\ Forall valid_result ys.
Proof.
  unfold collect.
  destruct (se_for_each_grows valid_result (firstn 5 els)
    (fun r => if valid_raw r then se_bind (se_lift (to_result env keywords r)) (fun x => se_push [x])
              else se_ret tt) st) as (ys & H1 & H2 & H3).
  - intros x st' _. destruct (valid_raw x) eqn:Ev.
    + unfold se_bind, se_lift, se_push. destruct (to_result env keywords x) as [y|e] eqn:Ey; simpl.
      * exists [y]. split; [reflexivity|]. split; [simpl; lia|].
        constructor; [|constructor]. exact (to_result_valid env keywords x y Ev Ey).
      * exists []. rewrite app_nil_r. split; [reflexivity|]. split; [simpl; lia | constructor].
    + exists []. simpl. rewrite app_nil_r. split; [reflexivity|]. split; [simpl; lia | constructor].
  - exists ys. repeat split; [exact H1 | | exact H3]. rewrite length_firstn in H2. lia.
Qed.

Lemma engine_attempt (env : Env) (keywords : list string) (u : string) (l : list ResearchResult) :
  (body <- http_get env u ;;
   snd (se_bind (collect env keywords (select_alt env body)) (fun _ => se_get) [])) = Ok l ->
  length l <= 5 /\ Forall valid_result l.
Proof.
  intros H. apply bind_ok_inv in H as (body & _ & H).
  destruct (collect_grows env keywords (select_alt env body) []) as (ys & H1 & H2 & H3).
  unfold se_bind in H. destruct (collect env keywords (select_alt env body) []) as [st1 o].
  simpl in H1. subst st1. destruct o; simpl in H; [|discriminate].
  injection H as <-. auto.
Qed.

Lemma first_engine_step (P : list ResearchResult -> Prop) (a k : outcome (list ResearchResult)) :
  (forall l, a = Ok l -> P l) -> (exists l, k = Ok l /\ P l) ->
  exists l, match a with Ok (x :: xs) => Ok (x :: xs) | _ => k end = Ok l /\ P l.
Proof.
  intros Ha Hk. destruct a as [[|x xs]|e]; [exact Hk | | exact Hk].
  exists (x :: xs). split; [reflexivity | apply Ha; reflexivity].
Qed.

(** X9: the similarity of two queries lies between 0 and 1 and does not
    depend on their order. *)
Theorem calculateQuerySimilarity_bounds_sym (q1 q2 : string) :
  (0 <= calculateQuerySimilarity q1 q2 <= 1)%Q /\
  calculateQuerySimilarity q1 q2 = calculateQuerySimilarity q2 q1.
Proof.
  split.
  - destruct (similarity_parts q1 q2) as [H1 H2]. unfold calculateQuerySimilarity.
    apply Q_ratio_bounds; assumption.
  - unfold calculateQuerySimilarity.
    set (w1 := dedup (split_char " " q1)). set (w2 := dedup (split_char " " q2)).
    assert (Hw1 : NoDup w1) by apply dedup_NoDup. assert (Hw2 : NoDup w2) by apply dedup_NoDup.
    rewrite (same_elements_length (filter (fun x => existsb (String.eqb x) w2) w1)
                                  (filter (fun x => existsb (String.eqb x) w1) w2)).
    + rewrite (same_elements_length (dedup (w1 ++ w2)) (dedup (w2 ++ w1))); [reflexivity| | |].
      * apply dedup_NoDup.
      * apply dedup_NoDup.
      * intros x. rewrite !dedup_In, !in_app_iff. tauto.
    + apply NoDup_filter, Hw1.
    + apply NoDup_filter, Hw2.
    + intros x. rewrite !inter_In. tauto.
Qed.

(** X10: when the cache file holds an entry keyed by the query itself,
    [searchWithCachedResults] does not miss: it resolves with the results
    of a cached entry whose similarity to the query is above 0.7. *)
Theorem searchWithCachedResults_exact_hit (env : Env) (keywords : list string) (text : string)
    (cache : list (string * list ResearchResult)) (rs : list ResearchResult) :
  read_cache_file env = Ok (Some text) -> parse_cache env text = Ok cache ->
  In (toLowerCase (join " " keywords), rs) cache ->
  exists e, In e cache /\
    (7 # 10 < calculateQuerySimilarity (toLowerCase (join " " keywords)) (fst e))%Q /\
    searchWithCachedResults env keywords = Ok (snd e).
Proof.
  intros Hr Hp Hin. unfold searchWithCachedResults. rewrite Hr. simpl. rewrite Hp. simpl.
  set (q := toLowerCase (join " " keywords)) in *.
  destruct (find (fun e => Qlt_bool (7 # 10) (calculateQuerySimilarity q (fst e))) cache) as [e|] eqn:Ef.
  - apply find_some in Ef as [He Hs]. apply Qlt_bool_iff in Hs. exists e. auto.
  - exfalso. apply (find_none _ _ Ef) in Hin. simpl in Hin.
    apply negb_false_iff in Hin. apply Qle_bool_iff in Hin.
    rewrite self_similarity in Hin. unfold Qle in Hin; simpl in Hin; lia.
Qed.

Lemma searchWithCachedResults_exact_hit_witness :
  let env := {| http_get := http_get offline_env;
                encodeURIComponent := encodeURIComponent offline_env;
                select_ddg := select_ddg offline_env; select_alt := select_alt offline_env;
                regex_count := regex_count offline_env;
                extractInsights := Research.extractInsights offline_env;
                Research.extractCodePatterns := Research.extractCodePatterns offline_env;
                Research.extractUIPatterns := Research.extractUIPatterns offline_env;
                read_cache_file := Ok (Some "cache");
                parse_cache := fun _ => Ok [("todo app", [])];
                llm_generate := llm_generate offline_env;
                parse_keywords := parse_keywords offline_env;
                parse_results := parse_results offline_env;
                parse_summary := parse_summary offline_env |} in
  exists e, In e [("todo app", @nil ResearchResult)] /\
    (7 # 10 < calculateQuerySimilarity (toLowerCase (join " " ["Todo"; "App"])) (fst e))%Q /\
    searchWithCachedResults env ["Todo"; "App"] = Ok (snd e).
Proof.
  intros env. apply (searchWithCachedResults_exact_hit env ["Todo"; "App"] "cache"
                       [("todo app", [])] []); [reflexivity | reflexivity | left; reflexivity].
Defined.

Lemma searchWeb_sorted_form (env : Env) (keywords : list string) (rs : list ResearchResult) :
  searchWeb env keywords = Ok rs -> exists xs, rs = sort_by_relevance xs.
Proof.
  unfold searchWeb. cbv zeta.
  match goal with |- context [let '(_, _) := ?b in _] => destruct b as [results o] end.
  destruct o; simpl; intros H; [injection H as <-; eauto | discriminate].
Qed.


(** X12: [searchWithAlternativeEngines] always resolves, with at most five
    results, each with a non-empty title, snippet and URL. *)
Theorem searchWithAlternativeEngines_shape (env : Env) (keywords : list string) :
  exists l, searchWithAlternativeEngines env keywords = Ok l /\
    length l <= 5 /\ Forall valid_result l.
Proof.
  unfold searchWithAlternativeEngines. cbn beta iota fix.
  do 3 (apply first_engine_step; [intros l E; exact (engine_attempt _ _ _ _ E)|]).
  exists []. split; [reflexivity|]. split; [simpl; lia | constructor].
Qed.


Lemma ci_prefix_lower (a s : string) :
  ci_prefix a s = true -> toLowerCase (substring 0 (String.length a) s) = toLowerCase a.
Proof.
  revert s. induction a as [|c a IH]; intros s H; [destruct s; reflexivity|].
  destruct s as [|d s]; [discriminate|]. simpl in H. apply andb_true_iff in H as [Hc H].
  unfold ci_eq in Hc. apply Ascii.eqb_eq in Hc. simpl. rewrite Hc, (IH s H). reflexivity.
Qed.

Lemma first_alt_spec (alts : list string) (s m : string) :
  first_alt alts s = Some m -> exists a, In a alts /\ toLowerCase m = toLowerCase a.
Proof.
  induction alts as [|a t IH]; simpl; [discriminate|].
  destruct (ci_prefix a s) eqn:E.
  - intros H. injection H as <-. exists a. split; [left; reflexivity | apply ci_prefix_lower, E].
  - intros H. destruct (IH H) as (a' & Ha' & Hm). exists a'. auto.
Qed.

Lemma match_all_fuel_spec (fuel : nat) (alts : list string) (s m : string) :
  In m (match_all_fuel fuel alts s) -> exists a, In a alts /\ toLowerCase m = toLowerCase a.
Proof.
  revert s. induction fuel as [|f IH]; intros s H; simpl in H; [destruct H|].
  destruct s as [|c s']; [destruct H|].
  destruct (first_alt alts (String c s')) as [m'|] eqn:E.
  - destruct H as [<-|H]; [exact (first_alt_spec _ _ _ E) | exact (IH _ H)].
  - exact (IH _ H).
Qed.

Lemma set_add_all_spec (seen l : list string) :
  NoDup (set_add_all seen l) /\
  (forall x, In x (set_add_all seen l) -> In x l /\ ~ In x seen).
Proof.
  revert seen. induction l as [|x t IH]; intros seen; simpl.
  - split; [constructor | intros _ []].
  - destruct (Optimizer.mem x seen) eqn:E.
    + destruct (IH seen) as [N H]. split; [exact N|]. intros y Hy. apply H in Hy. tauto.
    + destruct (IH (x :: seen)) as [N H]. split.
      * constructor; [|exact N]. intros Hx. apply H in Hx as [_ Hx]. apply Hx. left. reflexivity.
      * intros y [<-|Hy].
        -- split; [left; reflexivity|]. intros Hy. apply mem_In in Hy. congruence.
        -- apply H in Hy as [Hy1 Hy2]. split; [right; exact Hy1|]. intros Hs. apply Hy2. right. exact Hs.
Qed.

Lemma NoDup_firstn' {A} (n : nat) (l : list A) : NoDup l -> NoDup (firstn n l).
Proof.
  intros H. rewrite <- (firstn_skipn n l) in H. apply NoDup_app_remove_r in H. exact H.
Qed.

Lemma In_firstn' {A} (n : nat) (l : list A) (x : A) : In x (firstn n l) -> In x l.
Proof. intros H. rewrite <- (firstn_skipn n l). apply in_or_app. left. exact H. Qed.

Lemma extract_patterns_spec (pats : list (list string)) (s : string) :
  length (extract_patterns pats s) <= 5 /\ NoDup (extract_patterns pats s) /\
  incl (extract_patterns pats s) (map toLowerCase (concat pats)).
Proof.
  unfold extract_patterns, set_values.
  set (l := flat_map (fun alts => map toLowerCase (match_all alts s)) pats).
  destruct (set_add_all_spec [] l) as [N H]. split; [|split].
  - rewrite length_firstn. lia.
  - apply NoDup_firstn', N.
  - intros p Hp. apply In_firstn' in Hp. apply H in Hp as [Hp _].
    apply in_flat_map in Hp as (alts & Halts & Hp). apply in_map_iff in Hp as (m & <- & Hm).
    destruct (match_all_fuel_spec _ _ _ _ Hm) as (a & Ha & Heq). rewrite Heq.
    apply in_map. apply in_concat. exists alts. auto.
Qed.

(** X13: the code and UI pattern extractors return at most five distinct
    lower-case names, each one of the alternatives of their regular
    expressions. *)
Theorem extractPatterns_shape (s : string) :
  (length (extractCodePatterns s) <= 5 /\ NoDup (extractCodePatterns s) /\
   incl (extractCodePatterns s)
     ["usestate"; "useeffect"; "usecontext"; "usereducer"; "component"; "hook"; "function";
      "class"; "props"; "state"; "context"; "reducer"; "async"; "await"; "promise"; "fetch"]) /\
  (length (extractUIPatterns s) <= 5 /\ NoDup (extractUIPatterns s) /\
   incl (extractUIPatterns s)
     ["responsive"; "mobile"; "desktop"; "tablet"; "layout"; "grid"; "flexbox"; "css";
      "modal"; "dialog"; "popup"; "overlay"; "navigation"; "menu"; "sidebar"; "header";
      "button"; "input"; "form"; "card"]).
Proof. split; apply extract_patterns_spec. Qed.

Lemma search_all_ok (senv : SimilarEnv) (queries : list string) (acc : list ResearchResult) :
  exists l, search_all senv queries acc = Ok l.
Proof.
  revert acc. induction queries as [|q t IH]; intros acc; simpl; [eauto|].
  destruct (ResearchFacts.searchWeb_ok (base senv) [q]) as [rs H]. rewrite H. simpl. apply IH.
Qed.

Lemma uniq_by_url_spec (seen : list string) (l : list ResearchResult) :
  NoDup (map url (uniq_by_url seen l)) /\
  (forall r, In r (uniq_by_url seen l) -> ~ In (url r) seen).
Proof.
  revert seen. induction l as [|r t IH]; intros seen; simpl.
  - split; [constructor | intros _ []].
  - destruct (Optimizer.mem (url r) seen) eqn:E; [apply IH|].
    destruct (IH (url r :: seen)) as [N H]. split.
    + simpl. constructor; [|exact N]. intros Hin. apply in_map_iff in Hin as (r' & Hu & Hr').
      apply (H r' Hr'). left. symmetry. exact Hu.
    + intros r' [<-|Hr'].
      * intros Hin. apply mem_In in Hin. congruence.
      * intros Hin. apply (H r' Hr'). right. exact Hin.
Qed.

Lemma all_ok_map_url (f : ResearchResult -> outcome ResearchResult) (l : list ResearchResult) :
  (forall x, In x l -> exists y, f x = Ok y /\ url y = url x) ->
  exists l', all_ok (map f l) = Ok l' /\ map url l' = map url l.
Proof.
  induction l as [|x t IH]; intros H; simpl; [exists []; auto|].
  destruct (H x (or_introl eq_refl)) as (y & Hy & Hu).
  destruct IH as (l' & Hl' & Hm); [intros; apply H; right; assumption|].
  rewrite Hy. simpl. rewrite Hl'. simpl. exists (y :: l'). simpl. rewrite Hu, Hm. auto.
Qed.

Lemma enhance_similar_url (senv : SimilarEnv) (d : string) (r : ResearchResult) (t : string) :
  llm_similar senv d r = Ok t -> exists y, enhance_similar senv d r = Ok y /\ url y = url r.
Proof.
  intros H. unfold enhance_similar. rewrite H. simpl. eexists. split; [reflexivity|].
  destruct (delimited_match "{" "}" t); [|reflexivity].
  destruct (parse_similar senv s); reflexivity.
Qed.



Lemma slice_last_skipn (kb : list KBEntry) (e : KBEntry) :
  (if Nat.ltb 100 (length (app kb [e])) then slice_last 100 (app kb [e]) else app kb [e]) =
  skipn (S (length kb) - 100) (app kb [e]).
Proof.
  rewrite length_app. cbn [length]. rewrite Nat.add_1_r.
  destruct (Nat.ltb 100 (S (length kb))) eqn:E.
  - unfold slice_last. rewrite length_app. cbn [length]. rewrite Nat.add_1_r. reflexivity.
  - apply Nat.ltb_ge in E. replace (S (length kb) - 100) with 0 by lia. reflexivity.
Qed.

(** X15: when the file parses to an array [kb] and the write succeeds,
    the file afterwards holds [kb] with the new entry appended, cut to its
    last 100 entries. *)
Theorem updateKnowledgeBase_appends (kenv : KBEnv) (text : string) (kb : list KBEntry)
    (insights0 : list string) (now : string) :
  kb_parse kenv text = Ok (Some kb) -> (forall s, kb_write kenv s = Ok tt) ->
  let kb' := skipn (S (length kb) - 100)
                   (app kb [{| kb_insights := insights0; kb_timestamp := now |}]) in
  updateKnowledgeBase kenv (Readable text) insights0 now = Readable (kb_stringify kenv kb') /\
  length kb' = Nat.min (S (length kb)) 100 /\
  last kb' (Build_KBEntry [] "") = {| kb_insights := insights0; kb_timestamp := now |}.
Proof.
  intros Hp Hw kb'. unfold updateKnowledgeBase. rewrite Hp. cbv zeta.
  rewrite slice_last_skipn, Hw. split; [reflexivity|]. split.
  - subst kb'. rewrite length_skipn, length_app. simpl. lia.
  - subst kb'. rewrite skipn_app.
    replace (S (length kb) - 100 - length kb) with 0 by lia.
    apply last_last.
Qed.

Lemma updateKnowledgeBase_appends_witness :
  let kenv := {| kb_parse := fun _ => Ok (Some []);
                 kb_stringify := fun l => OptimizerChecks.nat_to_string (length l);
                 kb_write := fun _ => Ok tt |} in
  let kb' := skipn (S (length (@nil KBEntry)) - 100)
                   (app [] [{| kb_insights := ["Use React"]; kb_timestamp := "2026-01-01" |}]) in
  updateKnowledgeBase kenv (Readable "[]") ["Use React"] "2026-01-01" = Readable (kb_stringify kenv kb') /\
  length kb' = Nat.min (S (length (@nil KBEntry))) 100 /\
  last kb' (Build_KBEntry [] "") = {| kb_insights := ["Use React"]; kb_timestamp := "2026-01-01" |}.
Proof.
  intros kenv. apply (updateKnowledgeBase_appends kenv "[]" [] ["Use React"] "2026-01-01");
    [reflexivity | intros s; reflexivity].
Defined.

(** X16: an absent, unreadable or unparsable knowledge base file is
    replaced by one holding only the new entry: the entries it held are
    lost. *)
Theorem updateKnowledgeBase_resets (kenv : KBEnv) (file : KBFile)
    (insights0 : list string) (now : string) :
  (file = NoFile \/ (exists err, file = Unreadable err) \/
   (exists text err, file = Readable text /\ kb_parse kenv text = Throw err)) ->
  (forall s, kb_write kenv s = Ok tt) ->
  updateKnowledgeBase kenv file insights0 now =
  Readable (kb_stringify kenv [{| kb_insights := insights0; kb_timestamp := now |}]).
Proof.
  intros Hf Hw. unfold updateKnowledgeBase.
  destruct Hf as [-> | [[err ->] | (text & err & -> & Hp)]]; [| | rewrite Hp]; cbv zeta;
    simpl; rewrite Hw; reflexivity.
Qed.

Lemma updateKnowledgeBase_resets_witness :
  let kenv := {| kb_parse := fun _ => Throw "Unexpected end of JSON input";
                 kb_stringify := fun l => OptimizerChecks.nat_to_string (length l);
                 kb_write := fun _ => Ok tt |} in
  updateKnowledgeBase kenv (Readable "[{") ["Use React"] "2026-01-01" =
  Readable (kb_stringify kenv [{| kb_insights := ["Use React"]; kb_timestamp := "2026-01-01" |}]).
Proof.
  intros kenv. apply updateKnowledgeBase_resets; [| intros s; reflexivity].
  right. right. exists "[{", "Unexpected end of JSON input". split; reflexivity.
Defined.

End ResearchExtraFacts.

Module LowerCaseFacts.
Import JsString Research SubstringFacts TextProps.

Lemma lower_char_idem (c : ascii) : lower_char (lower_char c) = lower_char c.
Proof. destruct c as [[] [] [] [] [] [] [] []]; vm_compute; reflexivity. Qed.

Lemma lower_char_space (c : ascii) : Ascii.eqb (lower_char c) " " = Ascii.eqb c " ".
Proof. destruct c as [[] [] [] [] [] [] [] []]; vm_compute; reflexivity. Qed.

Lemma lower_char_sharp_s (c : ascii) : Ascii.eqb (lower_char c) sharp_s = Ascii.eqb c sharp_s.
Proof. destruct c as [[] [] [] [] [] [] [] []]; vm_compute; reflexivity. Qed.

Lemma lower_upper_char (c : ascii) :
  Ascii.eqb (lower_char c) c = true -> Ascii.eqb c sharp_s = false ->
  toLowerCase (Planner.upper_char c) = String c EmptyString.
Proof.
  destruct c as [[] [] [] [] [] [] [] []]; intros H1 H2; vm_compute in H1, H2;
    first [discriminate H1 | discriminate H2 | vm_compute; reflexivity].
Qed.

Lemma toLowerCase_app (a b : string) : toLowerCase (a ++ b) = toLowerCase a ++ toLowerCase b.
Proof. induction a as [|c a IH]; simpl; [reflexivity|]. rewrite IH. reflexivity. Qed.

Lemma toLowerCase_length (s : string) : String.length (toLowerCase s) = String.length s.
Proof. induction s as [|c s IH]; simpl; [reflexivity|]. rewrite IH. reflexivity. Qed.

Lemma toLowerCase_lower_fixed (s : string) : forall_chars lower_fixed (toLowerCase s) = true.
Proof.
  induction s as [|c s IH]; simpl; [reflexivity|]. rewrite IH, andb_true_r.
  unfold lower_fixed. rewrite lower_char_idem. apply Ascii.eqb_refl.
Qed.

Lemma lower_fixed_iff (s : string) : forall_chars lower_fixed s = true <-> toLowerCase s = s.
Proof.
  induction s as [|c s IH]; simpl; [tauto|]. rewrite andb_true_iff, IH. unfold lower_fixed.
  rewrite Ascii.eqb_eq. split; [intros [-> ->]; reflexivity | intros H; injection H; auto].
Qed.

Lemma toLowerCase_split_space (s : string) :
  split_char " " (toLowerCase s) = map toLowerCase (split_char " " s).
Proof.
  induction s as [|c s IH]; simpl; [reflexivity|].
  rewrite IH, lower_char_space. destruct (Ascii.eqb c " "); [reflexivity|].
  destruct (split_char " " s); reflexivity.
Qed.

Lemma no_char_not_included (c : ascii) (x : string) :
  forall_chars (not_char c) x = true -> includes x (String c EmptyString) = false.
Proof.
  induction x as [|d x IH]; intros H; [reflexivity|].
  simpl in H. apply andb_true_iff in H as [Hd H]. rewrite includes_cons, IH by exact H.
  unfold not_char in Hd. apply negb_true_iff, Ascii.eqb_neq in Hd. simpl.
  destruct (ascii_dec c d); [congruence | reflexivity].
Qed.

Lemma join_snoc (sep x : string) (l : list string) :
  l <> [] -> join sep (l ++ [x]) = join sep l ++ sep ++ x.
Proof.
  unfold join. induction l as [|a t IH]; intros H; [congruence|].
  destruct t as [|b t]; [reflexivity|].
  change (a ++ sep ++ String.concat sep ((b :: t) ++ [x]) =
          (a ++ sep ++ String.concat sep (b :: t)) ++ sep ++ x).
  rewrite IH by discriminate. rewrite !append_assoc. reflexivity.
Qed.

Lemma toLowerCase_join (sep : string) (l : list string) :
  toLowerCase (join sep l) = join (toLowerCase sep) (map toLowerCase l).
Proof.
  unfold join. induction l as [|a t IH]; [reflexivity|].
  destruct t as [|b t]; [reflexivity|].
  change (toLowerCase (a ++ sep ++ String.concat sep (b :: t)) =
          toLowerCase a ++ toLowerCase sep ++ String.concat (toLowerCase sep) (map toLowerCase (b :: t))).
  rewrite !toLowerCase_app, IH. reflexivity.
Qed.

End LowerCaseFacts.

Module KeywordPlannerFacts.
Import JsString Effects Effects.Notations SubstringFacts OptimizerExtraFacts TextProps LowerCaseFacts.

Lemma long_lower_words (p : string) :
  Forall (fun k => 3 < String.length k /\ Research.toLowerCase k = k /\
                   forall_chars (not_char " ") k = true)
         (filter (fun w => Nat.ltb 3 (String.length w)) (split_char " " (Research.toLowerCase p))).
Proof.
  apply Forall_forall. intros k Hk. apply filter_In in Hk as [Hk Hl].
  apply Nat.ltb_lt in Hl. split; [exact Hl|]. split.
  - apply lower_fixed_iff.
    apply (proj1 (Forall_forall _ _) (StringFacts.forall_chars_split_char lower_fixed " " _
             (toLowerCase_lower_fixed p)) k Hk).
  - apply (proj1 (Forall_forall _ _) (StringFacts.split_char_pieces " " _) k Hk).
Qed.

(** X17: when the LLM's keyword answer holds no JSON array, or one that
    does not parse, [extractKeywords] resolves with at most five keywords,
    each longer than three characters, in lower case and without a
    space. *)
Theorem extractKeywords_fallback (env : Research.Env) (prompt : string) (plan : option string)
    (resp : string) :
  Research.llm_generate env (Research.KeywordReq prompt plan) = Ok resp ->
  (Research.delimited_match "[" "]" resp = None \/
   exists j err, Research.delimited_match "[" "]" resp = Some j /\
                 Research.parse_keywords env j = Throw err) ->
  exists ks, Research.extractKeywords env prompt plan = Ok ks /\ length ks <= 5 /\
    Forall (fun k => 3 < String.length k /\ Research.toLowerCase k = k /\
                     includes k " " = false) ks.
Proof.
  intros Hllm Hcase. unfold Research.extractKeywords. rewrite Hllm. cbn [bind].
  set (simple := firstn 5 (filter (fun w => Nat.ltb 3 (String.length w))
                                  (split_char " " (Research.toLowerCase prompt)))).
  assert (Hs : length simple <= 5 /\
               Forall (fun k => 3 < String.length k /\ Research.toLowerCase k = k /\
                                includes k " " = false) simple).
  { split; [unfold simple; rewrite length_firstn; lia|].
    apply Forall_forall. intros k Hk. apply ResearchExtraFacts.In_firstn' in Hk.
    destruct (proj1 (Forall_forall _ _) (long_lower_words prompt) k Hk) as (H1 & H2 & H3).
    repeat split; [exact H1 | exact H2 | exact (no_char_not_included " " k H3)]. }
  destruct Hcase as [Hn | (j & err & Hj & Hp)].
  - rewrite Hn. exists simple. auto.
  - rewrite Hj. unfold try_catch. rewrite Hp. exists simple. auto.
Qed.

Lemma extractKeywords_fallback_witness :
  let env := {| Research.http_get := Research.http_get Research.offline_env;
                Research.encodeURIComponent := Research.encodeURIComponent Research.offline_env;
                Research.select_ddg := Research.select_ddg Research.offline_env;
                Research.select_alt := Research.select_alt Research.offline_env;
                Research.regex_count := Research.regex_count Research.offline_env;
                Research.extractInsights := Research.extractInsights Research.offline_env;
                Research.extractCodePatterns := Research.extractCodePatterns Research.offline_env;
                Research.extractUIPatterns := Research.extractUIPatterns Research.offline_env;
                Research.read_cache_file := Research.read_cache_file Research.offline_env;
                Research.parse_cache := Research.parse_cache Research.offline_env;
                Research.llm_generate := fun _ => Ok "Keywords: todo, tracker";
                Research.parse_keywords := Research.parse_keywords Research.offline_env;
                Research.parse_results := Research.parse_results Research.offline_env;
                Research.parse_summary := Research.parse_summary Research.offline_env |} in
  exists ks, Research.extractKeywords env "Build a Todo tracker" None = Ok ks /\ length ks <= 5 /\
    Forall (fun k => 3 < String.length k /\ Research.toLowerCase k = k /\
                     includes k " " = false) ks.
Proof.
  intros env. apply (extractKeywords_fallback env "Build a Todo tracker" None "Keywords: todo, tracker").
  - reflexivity.
  - left. vm_compute. reflexivity.
Defined.

Lemma capitalize_lower (k : string) :
  k <> EmptyString -> Research.toLowerCase k = k -> forall_chars (not_char sharp_s) k = true ->
  Research.toLowerCase (Planner.capitalize k) = k.
Proof.
  destruct k as [|c r]; intros Hne Hl Hs; [congruence|].
  simpl in Hl. injection Hl as Hc Hr. simpl in Hs. apply andb_true_iff in Hs as [Hs _].
  unfold not_char in Hs. apply negb_true_iff in Hs.
  simpl. rewrite toLowerCase_app, lower_upper_char, Hr; [reflexivity | | exact Hs].
  rewrite Hc. apply Ascii.eqb_refl.
Qed.

Lemma toLowerCase_no_sharp_s (p : string) :
  forall_chars (not_char sharp_s) p = true ->
  forall_chars (not_char sharp_s) (Research.toLowerCase p) = true.
Proof.
  induction p as [|c p IH]; intros Hp; [reflexivity|].
  simpl in Hp |- *. apply andb_true_iff in Hp as [Hc Hp]. rewrite IH by exact Hp.
  unfold not_char in *. rewrite lower_char_sharp_s, Hc. reflexivity.
Qed.

Lemma generateAppName_idem (p : string) :
  forall_chars (not_char sharp_s) p = true ->
  Planner.generateAppName (Planner.generateAppName p) = Planner.generateAppName p.
Proof.
  intros Hp. unfold Planner.generateAppName at 2 3.
  set (ks := firstn 2 (filter (fun w => Nat.ltb 3 (String.length w))
                              (split_char " " (Research.toLowerCase p)))).
  assert (Hks : Forall (fun k => 3 < String.length k /\ Research.toLowerCase k = k /\
                        forall_chars (not_char " ") k = true /\
                        forall_chars (not_char sharp_s) k = true) ks).
  { apply Forall_forall. intros k Hk. apply ResearchExtraFacts.In_firstn' in Hk.
    destruct (proj1 (Forall_forall _ _) (long_lower_words p) k Hk) as (H1 & H2 & H3).
    repeat split; [exact H1 | exact H2 | exact H3|].
    apply filter_In in Hk as [Hk _].
    apply (proj1 (Forall_forall _ _) (StringFacts.forall_chars_split_char (not_char sharp_s) " " _
             (toLowerCase_no_sharp_s p Hp)) k Hk). }
  assert (Hlen : length ks <= 2) by (unfold ks; rewrite length_firstn; lia).
  clearbody ks.
  unfold Planner.generateAppName.
  assert (Hlow : map (fun x => Research.toLowerCase (Planner.capitalize x)) ks = ks).
  { rewrite (map_ext_in _ (fun k => k)), map_id; [reflexivity|].
    intros k Hk. destruct (proj1 (Forall_forall _ _) Hks k Hk) as (H1 & H2 & _ & H4).
    apply capitalize_lower; [intros ->; simpl in H1; lia | exact H2 | exact H4]. }
  rewrite toLowerCase_app, toLowerCase_join, map_map, Hlow.
  change (Research.toLowerCase " ") with " ". change (Research.toLowerCase " App") with " app".
  destruct ks as [|k0 t0] eqn:Eks.
  - reflexivity.
  - rewrite <- Eks in *.
    replace (join " " ks ++ " app") with (join (String " " EmptyString) (ks ++ ["app"]))
      by (rewrite join_snoc by (rewrite Eks; discriminate); reflexivity).
    rewrite StringFacts.split_char_join.
    + rewrite filter_app.
      rewrite filter_all by (intros k Hk; apply Nat.ltb_lt;
                             exact (proj1 (proj1 (Forall_forall _ _) Hks k Hk))).
      change (filter (fun w => Nat.ltb 3 (String.length w)) ["app"]) with (@nil string).
      rewrite app_nil_r, firstn_all2 by exact Hlen. reflexivity.
    + rewrite Eks. discriminate.
    + apply Forall_app. split; [|repeat constructor].
      eapply Forall_impl; [|exact Hks]. simpl. tauto.
Qed.





Lemma or_str_nonempty (o : option string) (d : string) :
  d <> EmptyString -> Planner.or_str o d <> EmptyString.
Proof.
  intros Hd. destruct o as [s|]; simpl; [|exact Hd].
  destruct (String.eqb s "") eqn:E; [exact Hd|]. apply String.eqb_neq in E. exact E.
Qed.

Lemma generateAppName_nonempty (p : string) : Planner.generateAppName p <> EmptyString.
Proof. unfold Planner.generateAppName. destruct (join _ _); discriminate. Qed.

(** X20: [planApp] always resolves, with a plan whose name is not empty. *)
Theorem planApp_named (env : Planner.Env) (prompt : string) :
  exists plan, Planner.planApp env prompt = Ok plan /\ Planner.name plan <> EmptyString.
Proof.
  unfold Planner.planApp, try_catch.
  destruct (_ <- Planner.getModelClient env ;; _) as [plan|e] eqn:E.
  - exists plan. split; [reflexivity|].
    apply ResearchExtraFacts.bind_ok_inv in E as (u & _ & E).
    apply ResearchExtraFacts.bind_ok_inv in E as (a & _ & E).
    apply ResearchExtraFacts.bind_ok_inv in E as (t & _ & E). injection E as <-.
    unfold Planner.parsePlan.
    destruct (Research.delimited_match "{" "}" t) as [j|]; [|apply generateAppName_nonempty].
    destruct (Planner.parse_plan env j); [apply or_str_nonempty, generateAppName_nonempty|].
    apply generateAppName_nonempty.
  - eexists. split; [reflexivity | apply generateAppName_nonempty].
Qed.

End KeywordPlannerFacts.

Module DeployExtraFacts.
Import JsString Effects Effects.Notations Deploy DeployRun SubstringFacts.

Lemma append_cancel_l (a x y : string) : a ++ x = a ++ y -> x = y.
Proof. induction a as [|c a IH]; simpl; intros H; [exact H|]. injection H as H. apply IH, H. Qed.

Lemma append_cancel_r (s x y : string) : x ++ s = y ++ s -> x = y.
Proof.
  intros H. apply (f_equal rev_str) in H. rewrite !rev_str_app in H.
  apply append_cancel_l in H. apply (f_equal rev_str) in H. rewrite !rev_str_involutive in H.
  exact H.
Qed.

Lemma orchestrator_deploy_fails (denv : DeployEnv) (code : Optimizer.GeneratedCode)
    (config : DeploymentConfig) :
  platform config = "vercel" ->
  deployApp orchestratorDeployAgent denv code config =
  Ok {| dr_success := false; dr_url := None; dr_deploymentId := None; dr_logs := [];
        dr_errors := ["Vercel token not provided"] |}.
Proof. intros H. unfold deployApp, deployDispatch. rewrite H. reflexivity. Qed.

(** X21: with the deploy agent the orchestrator constructs (no tokens),
    [generateApp] never reports a deployment URL, whatever the other
    agents and the providers do. *)
Theorem generateApp_no_deploymentUrl (agents : Orchestrator.Agents) (denv : DeployEnv)
    (now : string) (request : Orchestrator.AppGenerationRequest) :
  Orchestrator.deploymentUrl (Orchestrator.generateApp (with_deploy_agent agents denv) now request)
  = None.
Proof.
  unfold Orchestrator.generateApp. cbn [with_deploy_agent Orchestrator.researchApp
    Orchestrator.planApp Orchestrator.generateCode Orchestrator.optimizeCode Orchestrator.deployApp].
  destruct (Orchestrator.researchApp agents (Orchestrator.prompt request)); [|reflexivity].
  destruct (Orchestrator.planApp agents request a); [|reflexivity].
  destruct (Orchestrator.generateCode agents a0 request); [|reflexivity].
  destruct (Orchestrator.optimizeCode agents a1); [|reflexivity].
  rewrite orchestrator_deploy_fails by reflexivity. reflexivity.
Qed.

(** X22: a successful AWS deployment reports the website URL of the
    configured region (us-east-1 by default), while the status check of the
    same bucket always reports the us-east-1 URL: the two agree only when
    the region is us-east-1. *)
Theorem deployApp_aws_region (agent : Agent) (denv : DeployEnv) (env : Env)
    (code : Optimizer.GeneratedCode) (environment0 : string) :
  aws_credentials_present denv = true ->
  aws_publish denv ("voxlor-app-" ++ now_ms denv) = Ok tt ->
  let bucket := "voxlor-app-" ++ now_ms denv in
  let region := Planner.or_str (aws_region denv) "us-east-1" in
  let deployed := "https://" ++ bucket ++ ".s3-website-" ++ region ++ ".amazonaws.com" in
  let checked := "https://" ++ bucket ++ ".s3-website-us-east-1.amazonaws.com" in
  deployApp agent denv code {| platform := "aws"; environment := environment0 |} =
    Ok {| dr_success := true; dr_url := Some deployed; dr_deploymentId := None;
          dr_logs := ["Successfully deployed to aws"]; dr_errors := [] |} /\
  checkDeploymentStatus agent env bucket "aws" =
    Ok {| status := Ready; s_url := Some checked;
          s_logs := ["AWS S3 deployment completed successfully"] |} /\
  (deployed = checked <-> region = "us-east-1").
Proof.
  intros Hc Hp bucket region deployed checked. split; [|split].
  - unfold deployApp, deployDispatch. cbn [platform]. simpl String.eqb. cbv iota.
    unfold deployToAWS. rewrite Hc. cbn [negb]. rewrite Hp. reflexivity.
  - reflexivity.
  - unfold deployed, checked. split.
    + intros H. change ".s3-website-us-east-1.amazonaws.com" with
        (".s3-website-" ++ "us-east-1" ++ ".amazonaws.com") in H.
      apply append_cancel_l in H. apply append_cancel_l in H. apply append_cancel_l in H.
      apply append_cancel_r in H. exact H.
    + intros ->. reflexivity.
Qed.

Lemma deployApp_aws_region_witness :
  let denv := {| vercel_create := Throw "unused"; netlify_create := Throw "unused";
                 netlify_archive_error := None; railway_token_var := None;
                 railway_create := Throw "unused";
                 aws_access_key_id := Some "AKIA"; aws_secret_access_key := Some "secret";
                 aws_region := Some "eu-west-1"; aws_publish := fun _ => Ok tt;
                 now_ms := "1700000000000" |} in
  let bucket := "voxlor-app-" ++ now_ms denv in
  let region := Planner.or_str (aws_region denv) "us-east-1" in
  let deployed := "https://" ++ bucket ++ ".s3-website-" ++ region ++ ".amazonaws.com" in
  let checked := "https://" ++ bucket ++ ".s3-website-us-east-1.amazonaws.com" in
  (deployApp full_agent denv Optimizer.img_bundle {| platform := "aws"; environment := "production" |} =
    Ok {| dr_success := true; dr_url := Some deployed; dr_deploymentId := None;
          dr_logs := ["Successfully deployed to aws"]; dr_errors := [] |} /\
   checkDeploymentStatus full_agent single_env bucket "aws" =
    Ok {| status := Ready; s_url := Some checked;
          s_logs := ["AWS S3 deployment completed successfully"] |} /\
   (deployed = checked <-> region = "us-east-1")) /\ deployed <> checked.
Proof.
  intros denv bucket region deployed checked. split.
  - apply (deployApp_aws_region full_agent denv single_env Optimizer.img_bundle "production");
      reflexivity.
  - vm_compute. discriminate.
Defined.

End DeployExtraFacts.
